(** * khivedev: benchmark statistics, load-test driver and pre-edit hook

    A shallow embedding of
    - [memory_performance_benchmark.py]: [PerformanceMetric],
      [BenchmarkResult], [StatisticalAnalyzer], [MemoryMCPBenchmark]
      ([measure_operation], [run_load_test]) and [ComparisonAnalyzer];
    - [hooks/pre_edit.py]: [handle_pre_edit].

    Python floats are idealised as real numbers ([R]); rounding is outside
    the model.  [int] values are [Z], [str] values are [string], an
    [Optional[str]] is an [option string], and a Python dict with string
    keys is a [gmap string _]. *)

From Stdlib Require Import Reals Lra Lia ZArith.
From Stdlib Require Import Sorted Permutation.
From stdpp Require Import base option list sorting strings pretty gmap.

Local Open Scope R_scope.

(** ** Exceptions *)

(** The classes of Python exceptions that occur in the modelled code.  The
    last four derive from [BaseException] but not from [Exception]
    (since Python 3.8 this includes [asyncio.CancelledError]), so an
    [except Exception] clause does not catch them.  [OtherError] stands
    for any other class that derives from [Exception], and
    [OtherBaseException] for any other class that does not
    ([GeneratorExit], or a class of the caller's). *)
Inductive exn_class :=
| ValueError
| ZeroDivisionError
| TypeError
| RuntimeError
| OtherError
| KeyboardInterrupt
| SystemExit
| CancelledError
| OtherBaseException.

Record exn := Exn { exn_cls : exn_class; exn_msg : string }.

(** [isinstance(e, Exception)] *)
Definition is_Exception (e : exn) : bool :=
  match exn_cls e with
  | KeyboardInterrupt | SystemExit | CancelledError | OtherBaseException =>
    false
  | _ => true
  end.

(** [str(e)]: the message the exception was built with; it is the empty
    string for an exception raised without arguments. *)
Definition str (e : exn) : string := exn_msg e.

(** A call either returns a value or raises. *)
Inductive result (A : Type) :=
| Ok (a : A)
| Raise (e : exn).
Arguments Ok {A} a.
Arguments Raise {A} e.

#[global] Instance result_ret : MRet result := fun _ a => Ok a.
#[global] Instance result_bind : MBind result := fun _ _ k r =>
  match r with
  | Ok a => k a
  | Raise e => Raise e
  end.

(** ** Data model *)

Module PerformanceMetric.
Record t := mk {
  operation : string;
  latency_ms : R;
  throughput_ops_per_sec : R;
  memory_usage_mb : R;
  cpu_usage_percent : R;
  timestamp : R;              (* a [datetime], in seconds *)
  concurrent_users : Z;
  dataset_size : Z;
  error : option string
}.
End PerformanceMetric.

Module BenchmarkResult.
Record t := mk {
  operation : string;
  dataset_size : Z;
  concurrent_users : Z;
  sample_count : nat;
  latency_mean : R;
  latency_median : R;
  latency_p95 : R;
  latency_p99 : R;
  latency_std : R;
  latency_ci_lower : R;
  latency_ci_upper : R;
  throughput_mean : R;
  throughput_median : R;
  throughput_std : R;
  throughput_ci_lower : R;
  throughput_ci_upper : R;
  memory_usage_mean_mb : R;
  cpu_usage_mean_percent : R;
  error_rate : R;
  total_errors : nat;
  test_duration_seconds : R;
  timestamp : R
}.
End BenchmarkResult.

Module PM := PerformanceMetric.
Module BR := BenchmarkResult.

(** ** Library statistics ([statistics], [numpy], [scipy.stats]) *)

Definition sum (data : list R) : R := foldr Rplus 0 data.

(** [statistics.mean]; every call site first checks that [data] is not
    empty. *)
Definition mean (data : list R) : R := sum data / INR (length data).

(** Insertion into an ascending list, and [sorted]. *)
Fixpoint insert_sorted (x : R) (l : list R) : list R :=
  match l with
  | [] => [x]
  | y :: l' => if Rle_dec x y then x :: l else y :: insert_sorted x l'
  end.

Definition sorted (data : list R) : list R := foldr insert_sorted [] data.

(** [statistics.median]: the middle element, or the mean of the two middle
    elements. *)
Definition median (data : list R) : R :=
  let s := sorted data in
  let n := length s in
  if Nat.odd n then nth (n / 2) s 0
  else (nth (n / 2 - 1) s 0 + nth (n / 2) s 0) / 2.

(** [statistics.variance] (sample variance) and [statistics.stdev]. *)
Definition variance (data : list R) : R :=
  let c := mean data in
  sum ((fun x => (x - c) * (x - c)) <$> data) / (INR (length data) - 1).

Definition stdev (data : list R) : R := sqrt (variance data).

(** [scipy.stats.sem]: standard error of the mean, with [ddof = 1]. *)
Definition sem (data : list R) : R := stdev data / sqrt (INR (length data)).

(** numpy's [_lerp]. *)
Definition lerp (a b t : R) : R :=
  if Rle_dec (1 / 2) t then b - (b - a) * (1 - t) else a + (b - a) * t.

(** Linear interpolation in an ascending list at a virtual index: between
    the element at its integer part and the next one, the latter clipped
    to the last index. *)
Definition interpolate (s : list R) (virtual_index : R) : R :=
  let previous_index := Z.to_nat (Int_part virtual_index) in
  let next_index := Nat.min (S previous_index) (length s - 1) in
  let gamma := virtual_index - IZR (Int_part virtual_index) in
  lerp (nth previous_index s 0) (nth next_index s 0) gamma.

(** [numpy.percentile] with the default (linear) method: the sorted data
    interpolated at the virtual index [(n - 1) * p / 100]. *)
Definition np_percentile (data : list R) (p : R) : R :=
  let s := sorted data in
  interpolate s ((INR (length s) - 1) * (p / 100)).

(** ** StatisticalAnalyzer *)

Section StatisticalAnalyzer.

(** [scipy.stats.t.ppf q df]: the quantile function of Student's t
    distribution, an external numeric routine. *)
Variable t_ppf : R -> nat -> R.

Definition calculate_confidence_interval_with
    (data : list R) (confidence : R) : R * R :=
  if decide (length data < 2)%nat then (0, 0)
  else
    let mean := mean data in
    let sem := sem data in
    let h := sem * t_ppf ((1 + confidence) / 2) (length data - 1) in
    (mean - h, mean + h).

(** The default argument [confidence = 0.95]. *)
Definition calculate_confidence_interval (data : list R) : R * R :=
  calculate_confidence_interval_with data (95 / 100).

Definition percentile (data : list R) (p : R) : R :=
  match data with
  | [] => 0
  | _ => np_percentile data p
  end.

Definition is_None {A} (o : option A) : bool :=
  match o with None => true | Some _ => false end.

(** [x if data else 0.0] *)
Definition if_nonempty {A} (data : list A) (x : R) : R :=
  match data with [] => 0 | _ => x end.

Definition analyze_metrics (now : R) (metrics : list PM.t)
    : result BR.t :=
  match metrics with
  | [] => Raise (Exn ValueError "No metrics to analyze")
  | first :: _ =>
    let latencies :=
      PM.latency_ms <$> List.filter (fun m => is_None (PM.error m)) metrics in
    let throughputs :=
      PM.throughput_ops_per_sec
        <$> List.filter (fun m => is_None (PM.error m)) metrics in
    let memory_usage :=
      PM.memory_usage_mb
        <$> List.filter (fun m => is_None (PM.error m)) metrics in
    let cpu_usage :=
      PM.cpu_usage_percent
        <$> List.filter (fun m => is_None (PM.error m)) metrics in
    let errors :=
      List.filter (fun m => negb (is_None (PM.error m))) metrics in
    let latency_ci := calculate_confidence_interval latencies in
    let throughput_ci := calculate_confidence_interval throughputs in
    Ok {|
      BR.operation := PM.operation first;
      BR.dataset_size := PM.dataset_size first;
      BR.concurrent_users := PM.concurrent_users first;
      BR.sample_count := length metrics;
      BR.latency_mean := if_nonempty latencies (mean latencies);
      BR.latency_median := if_nonempty latencies (median latencies);
      BR.latency_p95 := percentile latencies 95;
      BR.latency_p99 := percentile latencies 99;
      BR.latency_std :=
        if decide (1 < length latencies)%nat then stdev latencies else 0;
      BR.latency_ci_lower := latency_ci.1;
      BR.latency_ci_upper := latency_ci.2;
      BR.throughput_mean := if_nonempty throughputs (mean throughputs);
      BR.throughput_median := if_nonempty throughputs (median throughputs);
      BR.throughput_std :=
        if decide (1 < length throughputs)%nat then stdev throughputs else 0;
      BR.throughput_ci_lower := throughput_ci.1;
      BR.throughput_ci_upper := throughput_ci.2;
      BR.memory_usage_mean_mb := if_nonempty memory_usage (mean memory_usage);
      BR.cpu_usage_mean_percent := if_nonempty cpu_usage (mean cpu_usage);
      BR.error_rate := INR (length errors) / INR (length metrics);
      BR.total_errors := length errors;
      BR.test_duration_seconds :=
        PM.timestamp (List.last metrics first) - PM.timestamp first;
      BR.timestamp := now
    |}
  end.

End StatisticalAnalyzer.

(** ** SystemMonitor *)

(** One reading of the process: resident set size in bytes and
    [cpu_percent()]. *)
Record process_sample := { rss : R; cpu_percent : R }.

Record SystemMonitor := { baseline_memory : R }.

Definition get_current_usage (self : SystemMonitor) (p : process_sample)
    : R * R :=
  let memory_mb := rss p / 1024 / 1024 in
  (memory_mb - baseline_memory self, cpu_percent p).

(** ** MemoryMCPBenchmark *)

(** What one call of [measure_operation] observes: the two readings of
    [time.perf_counter()], the two readings of the process, how
    [await operation_func()] ends, and [datetime.now()].  The action always
    ends: it returns or it raises. *)
Record observation := {
  start_reading : R;
  start_sample : process_sample;
  outcome : result ();
  end_reading : R;
  end_sample : process_sample;
  wall_clock : R
}.

(** Code that writes to [self.logger] returns the lines it wrote with its
    result. *)
Definition logged (A : Type) : Type := list string * A.

Definition measure_operation (monitor : SystemMonitor)
    (operation : string) (obs : observation)
    (dataset_size : Z) (concurrent_users : Z) : logged (result PM.t) :=
  let start_time := start_reading obs in
  let '(start_memory, start_cpu) :=
    get_current_usage monitor (start_sample obs) in
  let attempt : logged (result (option string)) :=
    match outcome obs with
    | Ok _ => ([], Ok None)
    | Raise e =>
      if is_Exception e
      then (["Operation " +:+ operation +:+ " failed: " +:+ str e],
            Ok (Some (str e)))
      else ([], Raise e)
    end in
  match attempt.2 with
  | Raise e => (attempt.1, Raise e)
  | Ok error =>
    let end_time := end_reading obs in
    let '(end_memory, end_cpu) :=
      get_current_usage monitor (end_sample obs) in
    let latency_ms := (end_time - start_time) * 1000 in
    let throughput :=
      if Rlt_dec start_time end_time then 1 / (end_time - start_time)
      else 0 in
    (attempt.1,
     Ok {|
       PM.operation := operation;
       PM.latency_ms := latency_ms;
       PM.throughput_ops_per_sec := throughput;
       PM.memory_usage_mb := Rmax end_memory start_memory;
       PM.cpu_usage_percent := Rmax end_cpu start_cpu;
       PM.timestamp := wall_clock obs;
       PM.concurrent_users := concurrent_users;
       PM.dataset_size := dataset_size;
       PM.error := error
     |})
  end.

(** [range(n)] for a Python int: empty when [n] is not positive. *)
Definition range (n : Z) : list nat := seq 0 (Z.to_nat n).

(** [asyncio.as_completed]: the awaitables in the order in which they
    finish.  The scheduler is a function [choice]: at step [i] the task at
    position [choice i] (modulo the number of tasks still running) of the
    remaining ones finishes next. *)
Fixpoint as_completed_from {A} (step : nat) (choice : nat -> nat)
    (n : nat) (todo : list A) : list A :=
  match n with
  | O => []
  | S n' =>
    let k := (choice step `mod` length todo)%nat in
    match todo !! k with
    | Some x => x :: as_completed_from (S step) choice n' (delete k todo)
    | None => []
    end
  end.

Definition as_completed {A} (choice : nat -> nat) (tasks : list A) : list A :=
  as_completed_from 0 choice (length tasks) tasks.

Section run_load_test.

Variable monitor : SystemMonitor.
Variable operation : string.
(** [env u i] is what simulated user [u] observes at its sample [i]; it
    stands for the action, the clocks, the pacing delays and the
    interleaving of the tasks. *)
Variable env : nat -> nat -> observation.
Variable dataset_size : Z.
Variable concurrent_users : Z.
Variable samples_per_user : Z.

(** The loop of [user_simulation], over the samples still to take. *)
Fixpoint user_loop (todo : list observation) (user_metrics : list PM.t)
    : logged (result (list PM.t)) :=
  match todo with
  | [] => ([], Ok user_metrics)
  | obs :: todo' =>
    let '(lines, r) :=
      measure_operation monitor operation obs dataset_size concurrent_users in
    match r with
    | Raise e => (lines, Raise e)
    | Ok metric =>
      let '(lines', r') := user_loop todo' (user_metrics ++ [metric]) in
      (lines ++ lines', r')
    end
  end.

Definition user_simulation (u : nat) : logged (result (list PM.t)) :=
  user_loop (env u <$> range samples_per_user) [].

(** What [await task] raises in the driver, run by [asyncio.run], when the
    task raised [e].  A task that raised [CancelledError] ends cancelled,
    and awaiting it raises that error (the same one, message included,
    since Python 3.11).  A [KeyboardInterrupt] or a [SystemExit] is not
    left to the driver: it goes through the event loop, which stops, and
    [asyncio.run] then cancels what is still running, the driver included,
    so that the driver gets a [CancelledError] without a message.  Any other
    error is kept in the task and re-raised as it is (of these,
    [measure_operation] lets no [Exception] through). *)
Definition await_raises (e : exn) : exn :=
  match exn_cls e with
  | KeyboardInterrupt | SystemExit => Exn CancelledError EmptyString
  | _ => e
  end.

(** The collecting loop over the tasks in the order in which they finish:
    it stops at the first task that raised. *)
Fixpoint collect (done : list (logged (result (list PM.t))))
    (metrics : list PM.t) : result (list PM.t) :=
  match done with
  | [] => Ok metrics
  | (_, Ok user_metrics) :: done' => collect done' (metrics ++ user_metrics)
  | (_, Raise e) :: _ => Raise (await_raises e)
  end.

(** The tasks that the collecting loop has awaited when it stops: all of
    them, or those up to the first that raised. *)
Fixpoint awaited (done : list (logged (result (list PM.t))))
    : list (logged (result (list PM.t))) :=
  match done with
  | [] => []
  | (lines, Ok user_metrics) :: done' =>
    (lines, Ok user_metrics) :: awaited done'
  | (lines, Raise e) :: _ => [(lines, Raise e)]
  end.

(** The tasks that the collecting loop never awaits: those that would
    finish after the first that raised.  They are still running when the
    driver raises, and nothing waits for them. *)
Fixpoint unawaited (done : list (logged (result (list PM.t))))
    : list (logged (result (list PM.t))) :=
  match done with
  | [] => []
  | (_, Ok _) :: done' => unawaited done'
  | (_, Raise _) :: done' => done'
  end.

(** The lines of the tasks are listed task by task; how they interleave in
    the log is not modelled.  When the driver raises, the log has the lines
    of the tasks that it awaited; what the tasks still running have logged
    by then is not modelled. *)
Definition run_load_test (choice : nat -> nat) (duration_seconds : Z)
    : logged (result (list PM.t)) :=
  let starting :=
    "Starting load test: " +:+ operation +:+ ", "
    +:+ "dataset_size=" +:+ pretty dataset_size +:+ ", "
    +:+ "concurrent_users=" +:+ pretty concurrent_users +:+ ", "
    +:+ "duration=" +:+ pretty duration_seconds +:+ "s" in
  let tasks := user_simulation <$> range concurrent_users in
  let done := as_completed choice tasks in
  let task_lines := concat (fst <$> awaited done) in
  match collect done [] with
  | Raise e => (starting :: task_lines, Raise e)
  | Ok metrics =>
    (starting :: task_lines
       ++ ["Load test completed: " +:+ pretty (length metrics)
           +:+ " measurements collected"],
     Ok metrics)
  end.

(** The tasks of [run_load_test] that are left unawaited when it ends. *)
Definition run_load_test_unawaited (choice : nat -> nat)
    : list (logged (result (list PM.t))) :=
  unawaited (as_completed choice (user_simulation <$> range concurrent_users)).

End run_load_test.

(** ** ComparisonAnalyzer *)

(** [a / b] on Python floats. *)
Definition truediv (a b : R) : result R :=
  if Req_dec_T b 0 then Raise (Exn ZeroDivisionError "float division by zero")
  else Ok (a / b).

Definition Rleb (a b : R) : bool := if Rle_dec a b then true else false.

(** The entry of ["detailed_comparison"] for one operation. *)
Record detail := {
  latency_improvement_percent : R;
  throughput_improvement_percent : R;
  memory_improvement_percent : R;
  current_p95_latency : R;
  target_p95_latency : R;
  meets_target_10x_search_latency : bool;
  meets_target_5x_storage_throughput : bool;
  meets_target_50_percent_memory_reduction : bool
}.

(** The dict returned by [compare_systems]; two of its entries are never
    filled. *)
Record comparison := {
  summary : gmap string Empty_set;
  detailed_comparison : gmap string detail;
  migration_targets_assessment : gmap string Empty_set
}.

(** The body of the loop, for an operation that both systems have. *)
Definition compare_operation (current target : BR.t) : result detail :=
  latency_improvement ←
    truediv (BR.latency_mean current - BR.latency_mean target)
            (BR.latency_mean current);
  throughput_improvement ←
    truediv (BR.throughput_mean target - BR.throughput_mean current)
            (BR.throughput_mean current);
  memory_improvement ←
    truediv (BR.memory_usage_mean_mb current - BR.memory_usage_mean_mb target)
            (BR.memory_usage_mean_mb current);
  mret {|
    latency_improvement_percent := latency_improvement * 100;
    throughput_improvement_percent := throughput_improvement * 100;
    memory_improvement_percent := memory_improvement * 100;
    current_p95_latency := BR.latency_p95 current;
    target_p95_latency := BR.latency_p95 target;
    meets_target_10x_search_latency :=
      Rleb (BR.latency_p95 target) (BR.latency_p95 current / 10);
    meets_target_5x_storage_throughput :=
      Rleb (BR.throughput_mean current * 5) (BR.throughput_mean target);
    meets_target_50_percent_memory_reduction :=
      Rleb (5 / 10) memory_improvement
  |}.

(** [{r.operation: r for r in results}]: a later result replaces an earlier
    one with the same operation. *)
Definition by_op (results : list BR.t) : gmap string BR.t :=
  foldl (fun d r => <[BR.operation r := r]> d) ∅ results.

(** The loop visits the operations that both dicts have; all it can raise
    is the one [ZeroDivisionError], so the order of the visits does not
    show. *)
Definition compare_systems (current_results target_results : list BR.t)
    : result comparison :=
  let current_by_op := by_op current_results in
  let target_by_op := by_op target_results in
  let both := map_zip current_by_op target_by_op in
  entries ←
    mapM (fun '(operation, (current, target)) =>
            d ← compare_operation current target; mret (operation, d))
         (map_to_list both);
  mret {|
    summary := ∅;
    detailed_comparison := list_to_map entries;
    migration_targets_assessment := ∅
  |}.

(** ** ProductionTargets *)

(** [TARGETS["p95_latency_max_ms"]] *)
Definition p95_latency_max_ms : gmap string R :=
  {[ "memory_store" := 100; "memory_search" := 50;
     "memory_update" := 200; "memory_retrieve" := 30 ]}.

(** [TARGETS["error_rate_max"]] and [TARGETS["concurrent_users_support"]] *)
Definition error_rate_max : R := 1 / 100.
Definition concurrent_users_support : Z := 100.

(** The body of the loop of [evaluate_results]. *)
Definition evaluate_result (evaluation : gmap string bool) (result : BR.t)
    : gmap string bool :=
  let operation := BR.operation result in
  let evaluation :=
    match p95_latency_max_ms !! operation with
    | Some target_latency =>
      <[operation +:+ "_p95_latency_met" :=
          Rleb (BR.latency_p95 result) target_latency]> evaluation
    | None => evaluation
    end in
  let evaluation :=
    <[operation +:+ "_error_rate_met" :=
        Rleb (BR.error_rate result) error_rate_max]> evaluation in
  <[operation +:+ "_concurrent_users_met" :=
      bool_decide (concurrent_users_support <= BR.concurrent_users result)%Z]>
    evaluation.

Definition evaluate_results (results : list BR.t) : gmap string bool :=
  foldl evaluate_result ∅ results.

(** ** The pre-edit hook *)

(** A value of the returned dict. *)
Inductive value :=
| VBool (b : bool)
| VInt (z : Z)
| VStr (s : string).

(** [try: body except Exception as e: handler(e)] *)
Definition try_except {A} (body : result A) (handler : exn -> result A)
    : result A :=
  match body with
  | Ok a => Ok a
  | Raise e => if is_Exception e then handler e else Raise e
  end.

(** The keyword arguments of [HookEventContent(...)]. *)
Record HookEventContent_args := {
  event_type : string;
  tool_name : string;
  file_paths : list string;
  session_id : option string;
  metadata : gmap string value
}.

Section pre_edit.

(** [hook_event.py] is not among the sources: the two constructors and
    [asyncio.run(event.save())] are parameters, each of which returns or
    raises. *)
Variables HookEventContent HookEvent : Type.
Variable HookEventContent_new :
  HookEventContent_args -> result HookEventContent.
Variable HookEvent_new : HookEventContent -> result HookEvent.
Variable asyncio_run_save : HookEvent -> result ().

Definition handle_pre_edit (file_paths : list string) (tool_name : string)
    (session_id : option string) : result (gmap string value) :=
  try_except
    (content ← HookEventContent_new {|
       event_type := "pre_edit";
       tool_name := tool_name;
       file_paths := file_paths;
       session_id := session_id;
       metadata :=
         {[ "file_count" := VInt (Z.of_nat (length file_paths));
            "hook_type" := VStr "pre_edit" ]}
     |};
     event ← HookEvent_new content;
     _ ← try_except (asyncio_run_save event) (fun e => Ok ());
     mret ({[ "proceed" := VBool true;
              "file_count" := VInt (Z.of_nat (length file_paths));
              "event_logged" := VBool true ]} : gmap string value))
    (fun e =>
       Ok {[ "proceed" := VBool true;
             "error" := VStr (str e);
             "event_logged" := VBool false ]}).

End pre_edit.

(** ** The entry point of the pre-edit hook *)

(** What [json.load] returns. *)
#[warnings="-register-all"]
Inductive json :=
| JNull
| JBool (b : bool)
| JInt (z : Z)
| JFloat (x : R)
| JStr (s : string)
| JArr (l : list json)
| JObj (m : gmap string json).

(** [bool(v)] for a value of a result dict. *)
Definition truthy (v : value) : bool :=
  match v with
  | VBool b => b
  | VInt z => negb (z =? 0)%Z
  | VStr s => negb (String.eqb s "")
  end.

(** What a run of the hook leaves behind: the dicts printed (as JSON) on
    standard output, the lines on standard error, and the exit status
    passed to [sys.exit], or the error that ended the run. *)
Record process := {
  stdout : list (gmap string value);
  stderr : list string;
  exit_status : result Z
}.

Section main.

(** The text of the interpreter's message for an operation that an object
    does not support; it differs between versions of Python. *)
Variable message : string -> json -> string.

(** [handle_pre_edit], applied to whatever the input holds. *)
Variable handle : json -> json -> json -> result (gmap string value).

(** [obj.get(key, default)]: an [AttributeError] unless [obj] is a dict. *)
Definition py_get (obj : json) (key : string) (default_value : json)
    : result json :=
  match obj with
  | JObj m => Ok (default default_value (m !! key))
  | _ => Raise (Exn OtherError (message "get" obj))
  end.

(** [key in obj]: a key of a dict, an element of a list, a substring of a
    string; a [TypeError] otherwise. *)
Definition py_contains (key : string) (obj : json) : result bool :=
  match obj with
  | JObj m => Ok (bool_decide (is_Some (m !! key)))
  | JArr l =>
    Ok (existsb (fun x => match x with
                          | JStr s => String.eqb s key
                          | _ => false
                          end) l)
  | JStr s => Ok (bool_decide (is_Some (String.index 0 key s)))
  | _ => Raise (Exn TypeError (message "in" obj))
  end.

(** [obj[key]] for a string [key]: the value in a dict (a [KeyError] if it
    has none); a [TypeError] otherwise. *)
Definition py_getitem (obj : json) (key : string) : result json :=
  match obj with
  | JObj m =>
    match m !! key with
    | Some v => Ok v
    | None => Raise (Exn OtherError ("'" +:+ key +:+ "'"))
    end
  | _ => Raise (Exn TypeError (message "getitem" obj))
  end.

(** The arguments that [main] extracts from the input: the file paths, the
    tool name and the session id. *)
Definition arguments (hook_input : json) : result (json * json * json) :=
  session_id ← py_get hook_input "session_id" JNull;
  tool_input ← py_get hook_input "tool_input" (JObj ∅);
  tool_name ← py_get hook_input "tool_name" (JStr "unknown");
  has_file_path ← py_contains "file_path" tool_input;
  file_paths ←
    (if has_file_path : bool
     then v ← py_getitem tool_input "file_path"; mret (JArr [v])
     else
       has_file_paths ← py_contains "file_paths" tool_input;
       if has_file_paths : bool
       then py_getitem tool_input "file_paths"
       else mret (JArr []));
  mret (file_paths, tool_name, session_id).

(** The end of [main]: the result is printed and the exit status follows
    its ["proceed"]; an [Exception] is reported on both streams and the
    status is [0]; [sys.exit] raises [SystemExit], which no handler here
    catches. *)
Definition respond (body : result (gmap string value)) : process :=
  match body with
  | Ok result =>
    {| stdout := [result];
       stderr := [];
       exit_status :=
         Ok (if truthy (default (VBool true) (result !! "proceed"))
             then 0%Z else 1%Z) |}
  | Raise e =>
    if is_Exception e
    then {| stdout := [{[ "proceed" := VBool true;
                          "error" := VStr (str e) ]}];
            stderr := ["Error in pre-edit hook: " +:+ str e];
            exit_status := Ok 0%Z |}
    else {| stdout := []; stderr := []; exit_status := Raise e |}
  end.

(** [stdin] is what [json.load(sys.stdin)] returns or raises. *)
Definition main (stdin : result json) : process :=
  respond
    (hook_input ← stdin;
     '(file_paths, tool_name, session_id) ← arguments hook_input;
     handle file_paths tool_name session_id).

End main.

(** ** CurrentMemoryMCPBenchmark: the actions that the runner measures *)

(** The simulated storage: both dicts are keyed by memory id; Python values
    are given as JSON values.  Ids are the text of a UUID, so their length
    in characters is their length in bytes. *)
Record CurrentMemoryMCPBenchmark := {
  mock_memory_store : gmap string (gmap string json);
  mock_chroma_db : gmap string (gmap string json);
  id_counter : Z
}.

(** [mock_memory_store_operation]: after its pacing delay it stores the
    memory under a fresh id.  [memory_id] is what [str(uuid.uuid4())]
    returned, [created_at] what [datetime.now().isoformat()] returned and
    [embedding] the 384 random numbers. *)
Definition mock_memory_store_operation (self : CurrentMemoryMCPBenchmark)
    (memory_id created_at : string) (embedding : list R)
    (memory_data : gmap string json)
    : CurrentMemoryMCPBenchmark * string :=
  let entry : gmap string json :=
    <["namespace" := JStr "default"]>
      (<["created_at" := JStr created_at]>
         (<["id" := JStr memory_id]> memory_data)) in
  let vector : gmap string json :=
    {[ "embedding" := JArr (JFloat <$> embedding);
       "metadata" := default (JObj ∅) (memory_data !! "metadata") ]} in
  ({| mock_memory_store := <[memory_id := entry]> (mock_memory_store self);
      mock_chroma_db := <[memory_id := vector]> (mock_chroma_db self);
      id_counter := id_counter self |},
   memory_id).

(** [mock_memory_update_operation]: an id shorter than 16 characters is
    refused; otherwise the stored memory, if there is one, is updated in
    place. *)
Definition mock_memory_update_operation (self : CurrentMemoryMCPBenchmark)
    (memory_id : string) (updates : gmap string json)
    : CurrentMemoryMCPBenchmark * bool :=
  if decide (String.length memory_id < 16)%nat then (self, false)
  else
    match mock_memory_store self !! memory_id with
    | Some memory =>
      ({| mock_memory_store :=
            <[memory_id := updates ∪ memory]> (mock_memory_store self);
          mock_chroma_db := mock_chroma_db self;
          id_counter := id_counter self |},
       true)
    | None => (self, false)
    end.

(** ** Vocabulary of the statements *)

(** A record is successful when its error is [None]. *)
Definition succeeded (m : PM.t) : bool := is_None (PM.error m).
Definition failed (m : PM.t) : bool := negb (is_None (PM.error m)).

(** The latency and the throughput statistics of a summary. *)
Definition latency_stats (r : BR.t) : list R :=
  [BR.latency_mean r; BR.latency_median r; BR.latency_p95 r;
   BR.latency_p99 r; BR.latency_std r; BR.latency_ci_lower r;
   BR.latency_ci_upper r].

Definition throughput_stats (r : BR.t) : list R :=
  [BR.throughput_mean r; BR.throughput_median r; BR.throughput_std r;
   BR.throughput_ci_lower r; BR.throughput_ci_upper r].

(** The same statistics, computed from a list of latencies and from a list
    of throughputs. *)
Definition latency_summary (t_ppf : R -> nat -> R) (l : list R) : list R :=
  [if_nonempty l (mean l); if_nonempty l (median l);
   percentile l 95; percentile l 99;
   if decide (1 < length l)%nat then stdev l else 0;
   (calculate_confidence_interval t_ppf l).1;
   (calculate_confidence_interval t_ppf l).2].

Definition throughput_summary (t_ppf : R -> nat -> R) (l : list R) : list R :=
  [if_nonempty l (mean l); if_nonempty l (median l);
   if decide (1 < length l)%nat then stdev l else 0;
   (calculate_confidence_interval t_ppf l).1;
   (calculate_confidence_interval t_ppf l).2].

(** Python's [min] and [max] of a non-empty list. *)
Definition minimum (data : list R) : R :=
  match data with [] => 0 | x :: l => foldl Rmin x l end.
Definition maximum (data : list R) : R :=
  match data with [] => 0 | x :: l => foldl Rmax x l end.

(** The "10x latency improvement" flag that [compare_systems] reports for
    one current and one target summary, if it reports one. *)
Definition flag_10x (current target : BR.t) : option bool :=
  match compare_systems [current] [target] with
  | Ok cmp =>
    meets_target_10x_search_latency
      <$> detailed_comparison cmp !! BR.operation current
  | Raise _ => None
  end.

(** A call passes when the action returns or raises an [Exception]. *)
Definition passes (obs : observation) : Prop :=
  forall e, outcome obs = Raise e -> is_Exception e = true.

(** The calls that the driver makes: sample [i] of user [u], for every
    user and every sample. *)
Definition calls_of (env : nat -> nat -> observation)
    (concurrent_users samples_per_user : Z) : list observation :=
  u ← range concurrent_users; env u <$> range samples_per_user.

(** Whether the action of a call raised. *)
Definition raised (obs : observation) : bool :=
  match outcome obs with Ok _ => false | Raise _ => true end.

(** The last result of a list that has a given operation. *)
Definition last_with_op (results : list BR.t) (op : string) : option BR.t :=
  last (filter (fun r => BR.operation r = op) results).

(** The current means by which [compare_operation] divides. *)
Definition divisors_nonzero (current : BR.t) : Prop :=
  BR.latency_mean current <> 0
  /\ BR.throughput_mean current <> 0
  /\ BR.memory_usage_mean_mb current <> 0.

(** The three kinds of flags of an evaluation, the key of a flag and the
    flag that one result sets. *)
Inductive flag := P95_latency | Error_rate | Concurrent_users.

Definition flag_suffix (f : flag) : string :=
  match f with
  | P95_latency => "_p95_latency_met"
  | Error_rate => "_error_rate_met"
  | Concurrent_users => "_concurrent_users_met"
  end.

Definition flag_key (op : string) (f : flag) : string := op +:+ flag_suffix f.

Definition flag_value (r : BR.t) (f : flag) : option bool :=
  match f with
  | P95_latency =>
    (fun target_latency => Rleb (BR.latency_p95 r) target_latency)
      <$> p95_latency_max_ms !! BR.operation r
  | Error_rate => Some (Rleb (BR.error_rate r) (1 / 100))
  | Concurrent_users => Some (bool_decide (100 <= BR.concurrent_users r)%Z)
  end.

(** The keyword arguments with which [handle_pre_edit] builds the content
    of its event. *)
Definition pre_edit_args (file_paths : list string) (tool_name : string)
    (session_id : option string) : HookEventContent_args :=
  {| event_type := "pre_edit";
     tool_name := tool_name;
     file_paths := file_paths;
     session_id := session_id;
     metadata :=
       {[ "file_count" := VInt (Z.of_nat (length file_paths));
          "hook_type" := VStr "pre_edit" ]} |}.

(** *** Sample values *)

(** A sample metric and a sample quantile function for the examples. *)
Definition sample_metric (latency : R) (error : option string) : PM.t :=
  PM.mk "memory_search" latency 10 1 1 0 1 1000 error.

Definition sample_t_ppf (q : R) (df : nat) : R := 2.

(** A sample summary with the given mean, p95 and throughput, all other
    statistics [1]. *)
Definition sample_summary (latency_mean latency_p95 throughput_mean : R)
    : BR.t :=
  BR.mk "memory_search" 1000 1 10 latency_mean 1 latency_p95 1 1 1 1
        throughput_mean 1 1 1 1 1 1 0 0 1 0.

(** An observation whose action ends as given, with all readings [0]. *)
Definition observe (outcome : result ()) : observation :=
  {| start_reading := 0; start_sample := {| rss := 0; cpu_percent := 0 |};
     outcome := outcome;
     end_reading := 0; end_sample := {| rss := 0; cpu_percent := 0 |};
     wall_clock := 0 |}.

(** An observation of a call that returns after three tenths of a second,
    the process going from 2 MB and 25% CPU to 3 MB and 40% CPU. *)
Definition sample_observation : observation :=
  {| start_reading := 1;
     start_sample := {| rss := 2097152; cpu_percent := 25 |};
     outcome := Ok ();
     end_reading := 13 / 10;
     end_sample := {| rss := 3145728; cpu_percent := 40 |};
     wall_clock := 0 |}.

(** Users of which the first has its action end as given, while the action
    of the others returns. *)
Definition first_user_ends (outcome : result ()) (u i : nat) : observation :=
  observe (match u with O => outcome | _ => Ok () end).

(** The record that the recorder returns for an observation, if it
    returns one. *)
Definition recorded (monitor : SystemMonitor) (operation : string)
    (dataset_size concurrent_users : Z) (obs : observation) : PM.t :=
  match
    (measure_operation monitor operation obs dataset_size concurrent_users).2
  with
  | Ok metric => metric
  | Raise _ => sample_metric 0 None
  end.

(** The records a finished task returned; none for a task that raised. *)
Definition metrics_of (task : logged (result (list PM.t))) : list PM.t :=
  match task.2 with Ok user_metrics => user_metrics | Raise _ => [] end.

Definition returned {A} (r : result A) : Prop := exists a, r = Ok a.

(** * Properties *)

(** ** The summarizer and its inputs *)

Lemma INR_length_cons_neq_0 {A} (x : A) (l : list A) :
  INR (length (x :: l)) <> 0.
Proof. apply not_0_INR. simpl. lia. Qed.

Lemma filter_failed_length (metrics : list PM.t) :
  (length (List.filter succeeded metrics)
   + length (List.filter failed metrics) = length metrics)%nat.
Proof. apply (filter_length succeeded). Qed.

(** C1: summarizing an empty list raises [ValueError], and a summary is
    only ever returned for a non-empty list of metrics. *)
Theorem analyze_metrics_empty_raises t_ppf now (metrics : list PM.t) :
  (metrics = [] ->
   analyze_metrics t_ppf now metrics
   = Raise (Exn ValueError "No metrics to analyze"))
  /\ (forall r, analyze_metrics t_ppf now metrics = Ok r -> metrics <> []).
Proof.
  split.
  - intros ->. reflexivity.
  - intros r Hr ->. discriminate Hr.
Qed.

Lemma analyze_metrics_empty_raises_witness :
  analyze_metrics sample_t_ppf 0 []
  = Raise (Exn ValueError "No metrics to analyze")
  /\ [sample_metric 5 None] <> [].
Proof.
  split.
  - apply (proj1 (analyze_metrics_empty_raises sample_t_ppf 0 [])).
    reflexivity.
  - eapply (proj2 (analyze_metrics_empty_raises sample_t_ppf 0
                     [sample_metric 5 None])).
    reflexivity.
Defined.

(** C10: the operation, the dataset size and the concurrency of a summary
    are those of the first metric, whatever the other metrics carry: a
    list of metrics with different labels is summarized all the same. *)
Theorem analyze_metrics_labels_of_first t_ppf now
    (first : PM.t) (rest : list PM.t) :
  exists r, analyze_metrics t_ppf now (first :: rest) = Ok r
    /\ BR.operation r = PM.operation first
    /\ BR.dataset_size r = PM.dataset_size first
    /\ BR.concurrent_users r = PM.concurrent_users first.
Proof. eexists. split; [reflexivity|]. simpl. auto. Qed.

Lemma analyze_metrics_stats t_ppf now (metrics : list PM.t) r :
  analyze_metrics t_ppf now metrics = Ok r ->
  latency_stats r
  = latency_summary t_ppf (PM.latency_ms <$> List.filter succeeded metrics)
  /\ throughput_stats r
     = throughput_summary t_ppf
         (PM.throughput_ops_per_sec <$> List.filter succeeded metrics).
Proof.
  destruct metrics as [|first rest]; [discriminate|].
  unfold analyze_metrics. intros [= <-]. split; reflexivity.
Qed.

(** C2: for a non-empty list of [n] metrics of which [k] failed, the error
    rate is [k / n]; the latency and throughput statistics are those of
    the [n - k] successful records and do not change with the failed ones;
    if all failed, a summary is still returned, with latency statistics
    [0] and error rate [1]. *)
Theorem analyze_metrics_error_rate t_ppf now (metrics : list PM.t) :
  metrics <> [] ->
  let n := length metrics in
  let k := length (List.filter failed metrics) in
  let ok := List.filter succeeded metrics in
  exists r, analyze_metrics t_ppf now metrics = Ok r
    /\ BR.sample_count r = n
    /\ BR.total_errors r = k
    /\ BR.error_rate r = INR k / INR n
    /\ length ok = (n - k)%nat
    /\ latency_stats r = latency_summary t_ppf (PM.latency_ms <$> ok)
    /\ throughput_stats r
       = throughput_summary t_ppf (PM.throughput_ops_per_sec <$> ok)
    /\ (forall now' metrics' r',
          List.filter succeeded metrics' = ok ->
          analyze_metrics t_ppf now' metrics' = Ok r' ->
          latency_stats r' = latency_stats r
          /\ throughput_stats r' = throughput_stats r)
    /\ (k = n ->
        BR.error_rate r = 1
        /\ latency_stats r = [0; 0; 0; 0; 0; 0; 0]
        /\ throughput_stats r = [0; 0; 0; 0; 0]).
Proof.
  intros Hne n k ok.
  destruct (analyze_metrics t_ppf now metrics) as [r|e] eqn:Hr;
    [|destruct metrics; [done|discriminate Hr]].
  exists r. split; [reflexivity|].
  pose proof (filter_failed_length metrics) as Hlen. fold ok k n in Hlen.
  destruct (analyze_metrics_stats _ _ _ _ Hr) as [Hlat Hthr].
  fold ok in Hlat, Hthr.
  assert (BR.sample_count r = n /\ BR.total_errors r = k
          /\ BR.error_rate r = INR k / INR n) as (Hn & Hk & Hrate).
  { destruct metrics as [|first rest]; [done|].
    unfold analyze_metrics in Hr. injection Hr as <-. auto. }
  repeat (split; [assumption || lia|]). split.
  - intros now' metrics' r' Hsame Hr'.
    destruct (analyze_metrics_stats _ _ _ _ Hr') as [Hlat' Hthr'].
    rewrite Hsame in Hlat', Hthr'. split; congruence.
  - intros Hall.
    assert (ok = []) as Hnil by (apply length_zero_iff_nil; lia).
    rewrite Hrate, Hlat, Hthr, Hnil, Hall. split; [|split; reflexivity].
    apply Rdiv_diag. destruct metrics; [done|apply INR_length_cons_neq_0].
Qed.

Lemma analyze_metrics_error_rate_witness :
  exists r,
    analyze_metrics sample_t_ppf 0
      [sample_metric 5 None; sample_metric 7 (Some "timeout")] = Ok r
    /\ BR.error_rate r = INR 1 / INR 2.
Proof.
  destruct (analyze_metrics_error_rate sample_t_ppf 0
              [sample_metric 5 None; sample_metric 7 (Some "timeout")])
    as (r & Hr & _ & _ & Hrate & _).
  - discriminate.
  - exists r. split; [exact Hr|exact Hrate].
Defined.

(** ** Sorting and percentiles *)

Ltac decide_Rle :=
  repeat (simpl;
          match goal with
          | |- context [Rle_dec ?a ?b] => destruct (Rle_dec a b); try lra
          | |- context [Rlt_dec ?a ?b] => destruct (Rlt_dec a b); try lra
          end).

Example sorted_example : sorted [30; 10; 20] = [10; 20; 30].
Proof. unfold sorted. simpl. decide_Rle. reflexivity. Qed.

Example mean_example : mean [10; 20; 30; 40] = 25.
Proof. unfold mean, sum. simpl. lra. Qed.

Example median_odd_example : median [3; 1; 2] = 2.
Proof. unfold median, sorted. simpl. decide_Rle. reflexivity. Qed.

Example median_even_example : median [4; 1; 3; 2] = 5 / 2.
Proof. unfold median, sorted. simpl. decide_Rle. simpl. lra. Qed.

(** The 95th percentile of five values lies four fifths of the way from
    the fourth to the fifth. *)
Example np_percentile_example : np_percentile [10; 20; 30; 40; 50] 95 = 48.
Proof.
  unfold np_percentile.
  assert (sorted [10; 20; 30; 40; 50] = [10; 20; 30; 40; 50]) as ->
    by (unfold sorted; simpl; decide_Rle; reflexivity).
  unfold interpolate.
  assert (Int_part ((INR (length [10; 20; 30; 40; 50]) - 1) * (95 / 100))
          = 3%Z) as ->
    by (symmetry; apply Int_part_spec; simpl; lra).
  simpl. unfold lerp. decide_Rle.
Qed.

Lemma insert_sorted_Permutation x l : insert_sorted x l ≡ₚ x :: l.
Proof.
  induction l as [|y l IH]; simpl; [done|].
  destruct (Rle_dec x y); [done|].
  rewrite IH. apply Permutation_swap.
Qed.

Lemma sorted_Permutation data : sorted data ≡ₚ data.
Proof.
  induction data as [|x data IH]; simpl; [done|].
  unfold sorted in IH. rewrite insert_sorted_Permutation, IH. done.
Qed.

Lemma length_sorted data : length (sorted data) = length data.
Proof. apply Permutation_length, sorted_Permutation. Qed.

Lemma insert_sorted_StronglySorted x l :
  StronglySorted Rle l -> StronglySorted Rle (insert_sorted x l).
Proof.
  induction 1 as [|y l Hs IH Hy]; simpl.
  - repeat constructor.
  - destruct (Rle_dec x y) as [Hxy|Hxy].
    + constructor; [by constructor|].
      constructor; [done|].
      eapply Forall_impl; [exact Hy|]. intros z Hz. simpl in Hz. lra.
    + constructor; [done|].
      rewrite insert_sorted_Permutation. constructor; [lra|done].
Qed.

Lemma sorted_StronglySorted data : StronglySorted Rle (sorted data).
Proof.
  induction data as [|x data IH]; simpl; [constructor|].
  by apply insert_sorted_StronglySorted.
Qed.

(** In an ascending list the elements grow with the index. *)
Lemma StronglySorted_nth_le (s : list R) (i j : nat) :
  StronglySorted Rle s -> (i <= j)%nat -> (j < length s)%nat ->
  nth i s 0 <= nth j s 0.
Proof.
  intros Hs. revert i j.
  induction Hs as [|x s Hs IH Hx]; intros i j Hij Hj; simpl in Hj; [lia|].
  destruct i as [|i], j as [|j]; simpl; try lia.
  - lra.
  - rewrite Forall_forall in Hx. apply Hx.
    apply list_elem_of_In, nth_In. lia.
  - apply IH; lia.
Qed.

Lemma foldl_Rmin_le (l : list R) (x y : R) :
  y ∈ x :: l -> foldl Rmin x l <= y.
Proof.
  revert x y. induction l as [|z l IH]; intros x y Hy; simpl.
  - apply list_elem_of_singleton in Hy as ->. lra.
  - assert (foldl Rmin (Rmin x z) l <= Rmin x z) as Hle
      by (apply IH; left).
    apply elem_of_cons in Hy as [->|Hy].
    + pose proof (Rmin_l x z). lra.
    + apply elem_of_cons in Hy as [->|Hy].
      * pose proof (Rmin_r x z). lra.
      * apply IH. by right.
Qed.

Lemma foldl_Rmax_le (l : list R) (x y : R) :
  y ∈ x :: l -> y <= foldl Rmax x l.
Proof.
  revert x y. induction l as [|z l IH]; intros x y Hy; simpl.
  - apply list_elem_of_singleton in Hy as ->. lra.
  - assert (Rmax x z <= foldl Rmax (Rmax x z) l) as Hle
      by (apply IH; left).
    apply elem_of_cons in Hy as [->|Hy].
    + pose proof (Rmax_l x z). lra.
    + apply elem_of_cons in Hy as [->|Hy].
      * pose proof (Rmax_r x z). lra.
      * apply IH. by right.
Qed.

Lemma minimum_le data y : y ∈ data -> minimum data <= y.
Proof. destruct data; [by intros ?%elem_of_nil|apply foldl_Rmin_le]. Qed.

Lemma le_maximum data y : y ∈ data -> y <= maximum data.
Proof. destruct data; [by intros ?%elem_of_nil|apply foldl_Rmax_le]. Qed.

Lemma nth_sorted_elem_of data (i : nat) :
  (i < length data)%nat -> nth i (sorted data) 0 ∈ data.
Proof.
  intros Hi.
  eapply elem_of_Permutation_proper; [symmetry; apply sorted_Permutation|].
  apply list_elem_of_In, nth_In. by rewrite length_sorted.
Qed.

Lemma lerp_eq a b t : lerp a b t = a + (b - a) * t.
Proof. unfold lerp. destruct (Rle_dec (1 / 2) t); lra. Qed.

(** The integer part of a virtual index is a valid index. *)
Lemma Int_part_index (n : nat) (v : R) :
  0 <= v <= INR n - 1 ->
  exists lo : nat,
    Int_part v = Z.of_nat lo /\ (lo <= n - 1)%nat /\ (lo < n)%nat
    /\ INR lo <= v < INR lo + 1.
Proof.
  intros [H0 Hn].
  destruct (base_Int_part v) as [Hle Hgt].
  assert (0 <= Int_part v)%Z as Hz.
  { apply Z.lt_succ_r, lt_IZR. rewrite succ_IZR. lra. }
  exists (Z.to_nat (Int_part v)).
  rewrite Z2Nat.id by done.
  assert (INR (Z.to_nat (Int_part v)) = IZR (Int_part v)) as HINR.
  { rewrite INR_IZR_INZ, Z2Nat.id; done. }
  assert (Z.to_nat (Int_part v) < n)%nat as Hlt.
  { apply INR_lt. rewrite HINR. lra. }
  repeat split; try lia; rewrite HINR; lra.
Qed.

Section interpolate.

Variable s : list R.
Hypothesis s_sorted : StronglySorted Rle s.

(** What [interpolate] computes at a virtual index within the list. *)
Lemma interpolate_spec (v : R) :
  0 <= v <= INR (length s) - 1 ->
  exists lo : nat,
    (lo < length s)%nat /\ INR lo <= v < INR lo + 1
    /\ nth lo s 0 <= nth (Nat.min (S lo) (length s - 1)) s 0
    /\ interpolate s v
       = nth lo s 0
         + (nth (Nat.min (S lo) (length s - 1)) s 0 - nth lo s 0)
           * (v - INR lo).
Proof.
  intros Hv. destruct (Int_part_index _ _ Hv) as (lo & Hlo & Hle & Hlt & Hb).
  exists lo. split; [done|]. split; [done|]. split.
  - apply StronglySorted_nth_le; [done|lia|lia].
  - unfold interpolate. rewrite lerp_eq, Hlo, Nat2Z.id, <- INR_IZR_INZ. done.
Qed.

Lemma interpolate_mono (v1 v2 : R) :
  0 <= v1 -> v1 <= v2 -> v2 <= INR (length s) - 1 ->
  interpolate s v1 <= interpolate s v2.
Proof.
  intros H0 H12 Hn.
  destruct (interpolate_spec v1) as (lo1 & Hlt1 & Hb1 & Hs1 & ->); [lra|].
  destruct (interpolate_spec v2) as (lo2 & Hlt2 & Hb2 & Hs2 & ->); [lra|].
  assert (lo1 <= lo2)%nat as Hlo.
  { apply Nat.lt_succ_r, INR_lt. rewrite S_INR. lra. }
  destruct (decide (lo1 = lo2)) as [->|Hne]; [nra|].
  assert (nth (Nat.min (S lo1) (length s - 1)) s 0 <= nth lo2 s 0) as Hmid.
  { apply StronglySorted_nth_le; [done|lia|lia]. }
  nra.
Qed.

Lemma interpolate_bounds (v : R) :
  0 <= v <= INR (length s) - 1 ->
  nth 0 s 0 <= interpolate s v <= nth (length s - 1) s 0.
Proof.
  intros Hv.
  destruct (interpolate_spec v) as (lo & Hlt & Hb & Hs & ->); [done|].
  assert (nth 0 s 0 <= nth lo s 0) as Hfirst.
  { apply StronglySorted_nth_le; [done|lia|lia]. }
  assert (nth (Nat.min (S lo) (length s - 1)) s 0 <= nth (length s - 1) s 0)
    as Hlast.
  { apply StronglySorted_nth_le; [done|lia|lia]. }
  nra.
Qed.

End interpolate.

Lemma virtual_index_range (n : nat) (p : R) :
  (0 < n)%nat -> 0 <= p <= 100 ->
  0 <= (INR n - 1) * (p / 100) <= INR n - 1.
Proof.
  intros Hn Hp.
  assert (1 <= INR n) by (apply (le_INR 1); lia).
  nra.
Qed.

Lemma np_percentile_mono data (p q : R) :
  data <> [] -> 0 <= p -> p <= q -> q <= 100 ->
  np_percentile data p <= np_percentile data q.
Proof.
  intros Hne Hp Hpq Hq. unfold np_percentile.
  assert (0 < length (sorted data))%nat as Hlen.
  { rewrite length_sorted. destruct data; [done|simpl; lia]. }
  pose proof (virtual_index_range _ p Hlen) as Hvp.
  pose proof (virtual_index_range _ q Hlen) as Hvq.
  assert (1 <= INR (length (sorted data))) by (apply (le_INR 1); lia).
  apply interpolate_mono; [apply sorted_StronglySorted|lra|nra|lra].
Qed.

Lemma np_percentile_bounds data (p : R) :
  data <> [] -> 0 <= p <= 100 ->
  minimum data <= np_percentile data p <= maximum data.
Proof.
  intros Hne Hp. unfold np_percentile.
  assert (0 < length data)%nat as Hlen by (destruct data; [done|simpl; lia]).
  pose proof (interpolate_bounds (sorted data) (sorted_StronglySorted data)
                ((INR (length (sorted data)) - 1) * (p / 100))) as Hb.
  rewrite length_sorted in Hb.
  destruct Hb as [Hlo Hhi]; [by apply virtual_index_range|].
  rewrite length_sorted.
  pose proof (minimum_le data _ (nth_sorted_elem_of data 0 Hlen)).
  assert (length data - 1 < length data)%nat as Hlast by lia.
  pose proof (le_maximum data _ (nth_sorted_elem_of data _ Hlast)).
  lra.
Qed.

(** C7: when at least one record is successful, the summary has
    [latency_p95 <= latency_p99], and both lie between the smallest and
    the largest latency of the successful records. *)
Theorem analyze_metrics_percentiles t_ppf now (metrics : list PM.t) :
  (exists m, m ∈ metrics /\ PM.error m = None) ->
  let latencies := PM.latency_ms <$> List.filter succeeded metrics in
  exists r, analyze_metrics t_ppf now metrics = Ok r
    /\ BR.latency_p95 r <= BR.latency_p99 r
    /\ minimum latencies <= BR.latency_p95 r <= maximum latencies
    /\ minimum latencies <= BR.latency_p99 r <= maximum latencies.
Proof.
  intros (m & Hm & Herr) latencies.
  assert (latencies <> []) as Hne.
  { assert (PM.latency_ms m ∈ latencies) as Hin.
    { apply list_elem_of_fmap. exists m. split; [done|].
      apply list_elem_of_In, filter_In. split; [by apply list_elem_of_In|].
      unfold succeeded. by rewrite Herr. }
    intros Hnil. rewrite Hnil in Hin. by apply elem_of_nil in Hin. }
  destruct metrics as [|first rest]; [by apply elem_of_nil in Hm|].
  eexists. split; [reflexivity|].
  cbn [BR.latency_p95 BR.latency_p99].
  change (PM.latency_ms <$> List.filter _ (first :: rest)) with latencies.
  unfold percentile. destruct latencies as [|x l] eqn:Hl; [done|].
  rewrite <- Hl in *.
  split; [apply np_percentile_mono; [done|lra..]|].
  split; apply np_percentile_bounds; [done|lra|done|lra].
Qed.

Lemma analyze_metrics_percentiles_witness :
  exists r,
    analyze_metrics sample_t_ppf 0
      [sample_metric 5 None; sample_metric 7 (Some "timeout")] = Ok r
    /\ BR.latency_p95 r <= BR.latency_p99 r.
Proof.
  destruct (analyze_metrics_percentiles sample_t_ppf 0
              [sample_metric 5 None; sample_metric 7 (Some "timeout")])
    as (r & Hr & Hle & _).
  - exists (sample_metric 5 None). split; [left|reflexivity].
  - exists r. split; [exact Hr|exact Hle].
Defined.

(** ** The confidence interval *)

Lemma sum_cons (x : R) (l : list R) : sum (x :: l) = x + sum l.
Proof. reflexivity. Qed.

Lemma sum_squares_nonneg (c : R) (data : list R) :
  0 <= sum ((fun x => (x - c) * (x - c)) <$> data).
Proof.
  induction data as [|x data IH]; [simpl; lra|].
  rewrite fmap_cons, sum_cons.
  pose proof (Rle_0_sqr (x - c)) as Hsq. unfold Rsqr in Hsq. lra.
Qed.

Lemma sum_squares_pos (c : R) (data : list R) (x : R) :
  x ∈ data -> x <> c -> 0 < sum ((fun x => (x - c) * (x - c)) <$> data).
Proof.
  intros Hx Hxc.
  induction Hx as [x data|x y data Hx IH]; rewrite fmap_cons, sum_cons.
  - pose proof (sum_squares_nonneg c data).
    assert (0 < (x - c) * (x - c))
      by (apply (Rsqr_pos_lt (x - c)); intros Heq; apply Hxc; lra).
    lra.
  - pose proof (Rle_0_sqr (y - c)) as Hsq. unfold Rsqr in Hsq. lra.
Qed.

(** Some value differs from any given number when two values differ. *)
Lemma elem_of_neq (data : list R) (c : R) :
  (exists x y, x ∈ data /\ y ∈ data /\ x <> y) ->
  exists x, x ∈ data /\ x <> c.
Proof.
  intros (x & y & Hx & Hy & Hxy).
  destruct (Req_dec_T x c) as [->|Hxc]; [|by exists x].
  exists y. split; [done|]. congruence.
Qed.

Lemma sem_pos (data : list R) :
  (2 <= length data)%nat ->
  (exists x y, x ∈ data /\ y ∈ data /\ x <> y) ->
  0 < sem data.
Proof.
  intros Hlen Hdiff. unfold sem, stdev, variance.
  destruct (elem_of_neq data (mean data) Hdiff) as (x & Hx & Hxc).
  pose proof (sum_squares_pos (mean data) data x Hx Hxc) as Hsum.
  assert (2 <= INR (length data)) as Hn by (apply (le_INR 2); lia).
  apply Rdiv_lt_0_compat; apply sqrt_lt_R0; [|lra].
  apply Rdiv_lt_0_compat; lra.
Qed.

(** C4: the interval is [(0, 0)] for fewer than two values; for two or
    more values that are not all the same it has positive width and
    contains the mean.  Of [t.ppf] it is assumed that the quantile for a
    probability above one half is positive. *)
Theorem calculate_confidence_interval_width
    (t_ppf : R -> nat -> R) (data : list R) :
  (forall q df, 1 / 2 < q < 1 -> (1 <= df)%nat -> 0 < t_ppf q df) ->
  ((length data < 2)%nat ->
   calculate_confidence_interval t_ppf data = (0, 0))
  /\ ((2 <= length data)%nat ->
      (exists x y, x ∈ data /\ y ∈ data /\ x <> y) ->
      let ci := calculate_confidence_interval t_ppf data in
      ci.1 < ci.2 /\ ci.1 <= mean data <= ci.2).
Proof.
  intros Ht. unfold calculate_confidence_interval,
    calculate_confidence_interval_with.
  split; intros Hlen.
  - by rewrite decide_True.
  - intros Hdiff. rewrite decide_False by lia. simpl.
    pose proof (sem_pos data Hlen Hdiff) as Hsem.
    set (crit := t_ppf _ _).
    assert (0 < crit) as Hq by (apply Ht; [lra|lia]).
    assert (0 < sem data * crit) by (by apply Rmult_lt_0_compat).
    lra.
Qed.

Lemma calculate_confidence_interval_width_witness :
  calculate_confidence_interval sample_t_ppf [4] = (0, 0)
  /\ (let ci := calculate_confidence_interval sample_t_ppf [1; 3] in
      ci.1 < ci.2 /\ ci.1 <= mean [1; 3] <= ci.2).
Proof.
  assert (forall q df, 1 / 2 < q < 1 -> (1 <= df)%nat -> 0 < sample_t_ppf q df)
    as Ht by (intros; unfold sample_t_ppf; lra).
  split.
  - apply (proj1 (calculate_confidence_interval_width sample_t_ppf [4] Ht)).
    simpl. lia.
  - apply (proj2 (calculate_confidence_interval_width sample_t_ppf [1; 3] Ht)).
    + simpl. lia.
    + exists 1, 3. repeat split; [left|right; left|lra].
Defined.

(** ** The recorder *)

Example measure_operation_example :
  exists m,
    (measure_operation {| baseline_memory := 0 |} "memory_search"
       {| start_reading := 1; start_sample := {| rss := 0; cpu_percent := 0 |};
          outcome := Ok ();
          end_reading := 5 / 4;
          end_sample := {| rss := 0; cpu_percent := 0 |};
          wall_clock := 0 |} 1000 1).2 = Ok m
    /\ PM.latency_ms m = 250 /\ PM.throughput_ops_per_sec m = 4.
Proof.
  eexists. split; [reflexivity|]. simpl. split; [lra|]. decide_Rle.
Qed.

(** The recorder returns a metric exactly when the action returns or
    raises an error that [except Exception] catches. *)
Lemma measure_operation_cases monitor operation obs dataset_size users :
  let r := (measure_operation monitor operation obs dataset_size users).2 in
  match outcome obs with
  | Ok _ => exists m, r = Ok m /\ PM.error m = None
  | Raise e =>
    if is_Exception e
    then exists m, r = Ok m /\ PM.error m = Some (str e)
    else r = Raise e
  end.
Proof.
  unfold measure_operation, get_current_usage. simpl.
  destruct (outcome obs) as [[]|e]; simpl.
  - eexists. split; reflexivity.
  - destruct (is_Exception e); simpl; [|reflexivity].
    eexists. split; reflexivity.
Qed.

(** C6, as the code has it: for every label and every action that returns
    or raises, the recorder returns a metric unless the error is not an
    [Exception], which it lets through; the error field is [None] when the
    action returned and [str(e)], which may be the empty string, when it
    raised [e]. *)
Theorem measure_operation_error_field
    monitor operation obs dataset_size users :
  let r := (measure_operation monitor operation obs dataset_size users).2 in
  (forall u, outcome obs = Ok u ->
     exists m, r = Ok m /\ PM.error m = None)
  /\ (forall e, outcome obs = Raise e -> is_Exception e = true ->
        exists m, r = Ok m /\ PM.error m = Some (str e)
          /\ PM.error m <> None)
  /\ (forall e, outcome obs = Raise e -> is_Exception e = false ->
        r = Raise e).
Proof.
  intros r.
  pose proof (measure_operation_cases monitor operation obs dataset_size users)
    as Hcases.
  fold r in Hcases. simpl in Hcases.
  split; [|split].
  - intros u Hu. by rewrite Hu in Hcases.
  - intros e He Hcaught. rewrite He, Hcaught in Hcases.
    destruct Hcases as (m & Hm & Herr). exists m.
    split; [done|]. split; [done|]. by rewrite Herr.
  - intros e He Hpass. by rewrite He, Hpass in Hcases.
Qed.

Lemma measure_operation_error_field_witness :
  (exists m,
     (measure_operation {| baseline_memory := 0 |} "memory_store"
        (observe (Ok ())) 1000 1).2 = Ok m
     /\ PM.error m = None)
  /\ (exists m,
        (measure_operation {| baseline_memory := 0 |} "memory_store"
           (observe (Raise (Exn RuntimeError "store is down"))) 1000 1).2
        = Ok m
        /\ PM.error m = Some "store is down")
  /\ (measure_operation {| baseline_memory := 0 |} "memory_store"
        (observe (Raise (Exn CancelledError ""))) 1000 1).2
     = Raise (Exn CancelledError "").
Proof.
  split; [|split].
  - apply (proj1 (measure_operation_error_field {| baseline_memory := 0 |}
                    "memory_store" (observe (Ok ())) 1000 1) ()).
    reflexivity.
  - destruct (proj1 (proj2 (measure_operation_error_field
                 {| baseline_memory := 0 |} "memory_store"
                 (observe (Raise (Exn RuntimeError "store is down")))
                 1000 1)) (Exn RuntimeError "store is down"))
      as (m & Hm & Herr & _); [reflexivity..|].
    exists m. split; [exact Hm|exact Herr].
  - apply (proj2 (proj2 (measure_operation_error_field
                    {| baseline_memory := 0 |} "memory_store"
                    (observe (Raise (Exn CancelledError ""))) 1000 1))
             (Exn CancelledError ""));
      reflexivity.
Defined.

(** C6, as stated, fails: an action that raises an exception without a
    message is recorded with the empty string as its error. *)
Lemma measure_operation_empty_message :
  ~ (forall monitor operation obs dataset_size users,
       exists m,
         (measure_operation monitor operation obs dataset_size users).2 = Ok m
         /\ (forall e, outcome obs = Raise e ->
               PM.error m = Some (str e) /\ str e <> "")
         /\ (forall u, outcome obs = Ok u -> PM.error m = None)).
Proof.
  intros Hclaim.
  destruct (Hclaim {| baseline_memory := 0 |} "memory_store"
              (observe (Raise (Exn ValueError ""))) 1000%Z 1%Z)
    as (m & _ & Hraise & _).
  destruct (Hraise (Exn ValueError "") eq_refl) as [_ Hne].
  by apply Hne.
Qed.

(** ** The load-test driver *)

Lemma concat_Permutation {A} (l1 l2 : list (list A)) :
  l1 ≡ₚ l2 -> concat l1 ≡ₚ concat l2.
Proof.
  induction 1 as [|x l1 l2 _ IH|x y l|l1 l2 l3 _ IH1 _ IH2]; simpl.
  - done.
  - by rewrite IH.
  - rewrite !(assoc (++)). by rewrite (comm (++) y x).
  - by etrans.
Qed.

(** Whatever the scheduler chooses, [as_completed] yields every task
    once. *)
Lemma as_completed_from_Permutation {A} step choice n (todo : list A) :
  length todo = n -> as_completed_from step choice n todo ≡ₚ todo.
Proof.
  revert step todo. induction n as [|n IH]; intros step todo Hlen; simpl.
  - by apply length_zero_iff_nil in Hlen as ->.
  - assert (choice step `mod` length todo < length todo)%nat as Hk
      by (apply Nat.mod_upper_bound; lia).
    destruct (lookup_lt_is_Some_2 _ _ Hk) as [x Hx]. rewrite Hx.
    rewrite IH.
    + symmetry. by apply delete_Permutation.
    + rewrite length_delete by eauto. lia.
Qed.

Lemma as_completed_Permutation {A} choice (tasks : list A) :
  as_completed choice tasks ≡ₚ tasks.
Proof. by apply as_completed_from_Permutation. Qed.

(** The collecting loop returns when every task returned, and then it
    returns their records in the order of completion. *)
Lemma collect_Ok done metrics ms :
  collect done metrics = Ok ms <->
  Forall (fun task => returned task.2) done
  /\ ms = metrics ++ concat (metrics_of <$> done).
Proof.
  revert metrics. induction done as [|[lines [um|e]] done IH];
    intros metrics; simpl.
  - rewrite app_nil_r. split.
    + intros [= <-]. by split.
    + by intros [_ ->].
  - rewrite IH, Forall_cons. unfold metrics_of at 2. simpl.
    rewrite (assoc (++)). split.
    + intros [Hall ->]. split; [|done]. split; [by exists um|done].
    + by intros [[_ Hall] ->].
  - rewrite Forall_cons. unfold returned at 1. simpl.
    split; [done|]. by intros [[[um [=]] _] _].
Qed.

(** What the driver gets from a task that raised an error that is not an
    [Exception] is not an [Exception] either; it is a [CancelledError] when
    the task was cancelled or interrupted. *)
Lemma await_raises_not_Exception e :
  is_Exception e = false -> is_Exception (await_raises e) = false.
Proof. by destruct e as [[] msg]. Qed.

Lemma await_raises_cancelled e :
  exn_cls e ∈ [KeyboardInterrupt; SystemExit; CancelledError] ->
  exn_cls (await_raises e) = CancelledError.
Proof.
  destruct e as [cls msg]. simpl. intros Hcls.
  repeat (apply elem_of_cons in Hcls as [->|Hcls]; [done|]).
  by apply elem_of_nil in Hcls.
Qed.

(** What the collecting loop raises is what awaiting one of the tasks
    raises. *)
Lemma collect_Raise done metrics e :
  collect done metrics = Raise e ->
  exists task e0, task ∈ done /\ task.2 = Raise e0 /\ e = await_raises e0.
Proof.
  revert metrics. induction done as [|[lines [um|e']] done IH];
    intros metrics; simpl.
  - discriminate.
  - intros (task & e0 & Hin & Ht)%IH. exists task, e0. split; [by right|done].
  - intros [= <-]. exists (lines, Raise e'), e'. split; [left|done].
Qed.

(** When the collecting loop returns, it has awaited every task. *)
Lemma unawaited_Ok done metrics ms :
  collect done metrics = Ok ms -> unawaited done = [].
Proof.
  revert metrics. induction done as [|[lines [um|e]] done IH];
    intros metrics; simpl; [done|apply IH|discriminate].
Qed.

(** It leaves tasks unawaited only when one of them raised, and then it
    raises what awaiting that task raises. *)
Lemma unawaited_Raise done metrics :
  unawaited done <> [] ->
  exists task e0,
    task ∈ done /\ task.2 = Raise e0
    /\ collect done metrics = Raise (await_raises e0).
Proof.
  revert metrics. induction done as [|[lines [um|e]] done IH];
    intros metrics; simpl.
  - done.
  - intros (task & e0 & Hin & Ht & Hc)%(IH (metrics ++ um)).
    exists task, e0. split; [by right|done].
  - intros _. exists (lines, Raise e), e. split; [left|done].
Qed.

Section run_load_test_facts.

Variable monitor : SystemMonitor.
Variable operation : string.
Variable env : nat -> nat -> observation.
Variable dataset_size concurrent_users samples_per_user : Z.

Abbreviation measure obs :=
  (measure_operation monitor operation obs dataset_size concurrent_users).
Abbreviation record :=
  (recorded monitor operation dataset_size concurrent_users).

Lemma user_loop_returns
    (todo : list observation) (user_metrics : list PM.t) :
  Forall (fun obs => returned (measure obs).2) todo ->
  (user_loop monitor operation dataset_size concurrent_users
     todo user_metrics).2
  = Ok (user_metrics ++ (record <$> todo)).
Proof.
  intros Hall. revert user_metrics.
  induction Hall as [|obs todo [m Hm] _ IH]; intros user_metrics; simpl.
  - by rewrite app_nil_r.
  - unfold recorded at 1.
    destruct (measure obs) as [lines r]. simpl in Hm. subst r.
    specialize (IH (user_metrics ++ [m])).
    destruct (user_loop _ _ _ _ todo _) as [lines' r']. simpl in *.
    by rewrite IH, <- (assoc (++)).
Qed.

(** What the loop of a user raises was raised by one of its calls, and is
    not an [Exception]. *)
Lemma user_loop_Raise (todo : list observation) (acc : list PM.t) e :
  (user_loop monitor operation dataset_size concurrent_users todo acc).2
  = Raise e ->
  exists obs, obs ∈ todo /\ outcome obs = Raise e /\ is_Exception e = false.
Proof.
  revert acc. induction todo as [|obs todo IH]; intros acc; simpl.
  - discriminate.
  - pose proof (measure_operation_cases monitor operation obs dataset_size
                  concurrent_users) as Hcases. simpl in Hcases.
    destruct (measure obs) as [lines [m|e']]; simpl in *.
    + specialize (IH (acc ++ [m])).
      destruct (user_loop _ _ _ _ todo (acc ++ [m])) as [lines' r'].
      simpl in *.
      intros (obs' & Hin & Hout)%IH. exists obs'. split; [by right|done].
    + intros [= ->]. exists obs. split; [left|].
      destruct (outcome obs) as [[]|e'].
      * by destruct Hcases as (? & [=] & _).
      * destruct (is_Exception e') eqn:He'.
        -- by destruct Hcases as (? & [=] & _).
        -- by injection Hcases as ->.
Qed.

Lemma length_concat_fmap {A B} (g : A -> list B) (us : list A) (n : nat) :
  (forall u, length (g u) = n) ->
  length (concat (g <$> us)) = (length us * n)%nat.
Proof.
  intros Hg. induction us as [|u us IH]; [done|].
  rewrite fmap_cons. cbn [concat length].
  by rewrite length_app, Hg, IH.
Qed.

Abbreviation simulate :=
  (user_simulation monitor operation env dataset_size concurrent_users
     samples_per_user).
Abbreviation run :=
  (run_load_test monitor operation env dataset_size concurrent_users
     samples_per_user).

(** The result of the driver, from the tasks it spawned. *)
Lemma run_load_test_collect choice duration_seconds :
  (run choice duration_seconds).2
  = collect (as_completed choice (simulate <$> range concurrent_users)) [].
Proof. unfold run_load_test. by destruct (collect _ _). Qed.

(** When the driver returns, every task returned and the result is their
    records. *)
Lemma run_load_test_Ok choice duration_seconds ms :
  (run choice duration_seconds).2 = Ok ms ->
  (forall u, u ∈ range concurrent_users -> returned (simulate u).2)
  /\ ms ≡ₚ concat (metrics_of ∘ simulate <$> range concurrent_users).
Proof.
  rewrite run_load_test_collect, collect_Ok. simpl. intros [Hall ->].
  pose proof (as_completed_Permutation choice
                (simulate <$> range concurrent_users)) as Hperm.
  split.
  - intros u Hu. rewrite Hperm, Forall_fmap, Forall_forall in Hall.
    by apply Hall.
  - rewrite list_fmap_compose. by apply concat_Permutation, fmap_Permutation.
Qed.

(** C3, as the code has it: when every call of the action returns or
    raises an error that is an [Exception], the driver returns exactly
    [U * S] records, one for each call of each user, failed or not. *)
Theorem run_load_test_count choice duration_seconds :
  (forall u i e, outcome (env u i) = Raise e -> is_Exception e = true) ->
  (0 <= concurrent_users)%Z -> (0 <= samples_per_user)%Z ->
  exists ms,
    (run choice duration_seconds).2 = Ok ms
    /\ Z.of_nat (length ms) = (concurrent_users * samples_per_user)%Z
    /\ (forall u i, (measure (env u i)).2 = Ok (record (env u i)))
    /\ ms ≡ₚ concat ((fun u => record ∘ env u <$> range samples_per_user)
                       <$> range concurrent_users).
Proof.
  intros Hcaught HU HS.
  assert (forall u i, (measure (env u i)).2 = Ok (record (env u i))) as Hrec.
  { intros u i. unfold recorded.
    pose proof (measure_operation_cases monitor operation (env u i)
                  dataset_size concurrent_users) as Hcases.
    simpl in Hcases. destruct (outcome (env u i)) as [[]|e] eqn:Hout.
    - destruct Hcases as (m & -> & _). done.
    - rewrite (Hcaught u i e Hout) in Hcases.
      destruct Hcases as (m & -> & _). done. }
  assert (forall u, (simulate u).2
                    = Ok (record ∘ env u <$> range samples_per_user)) as Hsim.
  { intros u. unfold user_simulation. rewrite user_loop_returns.
    - by rewrite <- list_fmap_compose.
    - apply Forall_fmap, Forall_forall. intros i _. eexists. apply Hrec. }
  destruct (collect (as_completed choice (simulate <$> range concurrent_users))
              []) as [ms|e] eqn:Hcollect.
  - exists ms.
    assert ((run choice duration_seconds).2 = Ok ms) as Hrun
      by (by rewrite run_load_test_collect).
    destruct (run_load_test_Ok _ _ _ Hrun) as [_ Hperm].
    assert (metrics_of ∘ simulate <$> range concurrent_users
            = (fun u => record ∘ env u <$> range samples_per_user)
                <$> range concurrent_users) as Heq.
    { apply list_fmap_ext. intros _ u _. unfold metrics_of. simpl.
      by rewrite Hsim. }
    rewrite Heq in Hperm.
    split; [done|]. split; [|by split].
    rewrite (Permutation_length Hperm).
    rewrite (length_concat_fmap _ _ (Z.to_nat samples_per_user)).
    + unfold range. rewrite length_seq. lia.
    + intros u. unfold range. by rewrite length_fmap, length_seq.
  - exfalso.
    assert (collect (as_completed choice (simulate <$> range concurrent_users))
              [] = Ok (concat (metrics_of <$> as_completed choice
                         (simulate <$> range concurrent_users)))) as Hok.
    { apply collect_Ok. split; [|done].
      rewrite as_completed_Permutation. apply Forall_fmap, Forall_forall.
      intros u _. simpl. eexists. apply Hsim. }
    congruence.
Qed.

End run_load_test_facts.

Lemma run_load_test_count_witness :
  exists ms,
    (run_load_test {| baseline_memory := 0 |} "memory_store"
       (fun u i => observe (Raise (Exn RuntimeError "store is down")))
       1000 2 3 (fun _ => 1%nat) 60).2 = Ok ms
    /\ Z.of_nat (length ms) = (2 * 3)%Z.
Proof.
  destruct (run_load_test_count {| baseline_memory := 0 |} "memory_store"
              (fun u i => observe (Raise (Exn RuntimeError "store is down")))
              1000 2 3 (fun _ => 1%nat) 60)
    as (ms & Hms & Hlen & _).
  - intros u i e [= <-]. reflexivity.
  - lia.
  - lia.
  - exists ms. split; [exact Hms|exact Hlen].
Defined.

(** C3, as stated, fails: [asyncio.CancelledError] is not an [Exception],
    so an action that raises it ends the task and the driver, which
    returns no list. *)
Lemma run_load_test_cancelled_action :
  ~ (forall monitor operation env dataset_size concurrent_users
            samples_per_user choice duration_seconds,
       (0 <= concurrent_users)%Z -> (0 <= samples_per_user)%Z ->
       exists ms,
         (run_load_test monitor operation env dataset_size concurrent_users
            samples_per_user choice duration_seconds).2 = Ok ms
         /\ Z.of_nat (length ms)
            = (concurrent_users * samples_per_user)%Z).
Proof.
  intros Hclaim.
  destruct (Hclaim {| baseline_memory := 0 |} "memory_store"
              (fun u i => observe (Raise (Exn CancelledError "")))
              1000%Z 1%Z 1%Z (fun _ => 0%nat) 60%Z)
    as (ms & Hms & _); [lia..|].
  rewrite run_load_test_collect in Hms. discriminate Hms.
Qed.

(** C8, as stated, fails in its last part: an action that raises
    [asyncio.CancelledError] ends its task, the collecting loop raises at
    this task, and the task of the other user, still running, is never
    awaited. *)
Lemma run_load_test_task_left_unawaited :
  ~ (forall monitor operation env dataset_size concurrent_users
            samples_per_user choice duration_seconds duration_seconds',
       (run_load_test monitor operation env dataset_size concurrent_users
          samples_per_user choice duration_seconds).2
       = (run_load_test monitor operation env dataset_size concurrent_users
            samples_per_user choice duration_seconds').2
       /\ run_load_test_unawaited monitor operation env dataset_size
            concurrent_users samples_per_user choice = []).
Proof.
  intros Hclaim.
  destruct (Hclaim {| baseline_memory := 0 |} "memory_store"
              (first_user_ends (Raise (Exn CancelledError "boom")))
              1000%Z 2%Z 1%Z (fun _ => 0%nat) 30%Z 60%Z)
    as [_ Hnone].
  discriminate Hnone.
Qed.

(** C8, as the code has it: the duration has no effect on what the driver
    returns or raises; there is no deadline, and the driver cancels
    nothing.  When it returns, it has awaited every task it spawned, every
    task has returned and the result holds the records of all of them.  It
    leaves a task unawaited only when the action raised, in some task, an
    error that is not an [Exception]: then the driver raises what awaiting
    that task raises, which is not an [Exception] either. *)
Theorem run_load_test_duration_unused
    monitor operation env dataset_size concurrent_users samples_per_user
    choice (duration_seconds duration_seconds' : Z) :
  let run := run_load_test monitor operation env dataset_size
               concurrent_users samples_per_user choice in
  let simulate := user_simulation monitor operation env dataset_size
                    concurrent_users samples_per_user in
  let left := run_load_test_unawaited monitor operation env dataset_size
                concurrent_users samples_per_user choice in
  (run duration_seconds).2 = (run duration_seconds').2
  /\ (forall ms, (run duration_seconds).2 = Ok ms ->
        left = []
        /\ (forall u, u ∈ range concurrent_users -> returned (simulate u).2)
        /\ ms ≡ₚ concat (metrics_of ∘ simulate <$> range concurrent_users))
  /\ (left <> [] ->
        exists e,
          (run duration_seconds).2 = Raise e
          /\ is_Exception e = false
          /\ exists u e0,
               u ∈ range concurrent_users
               /\ (simulate u).2 = Raise e0 /\ is_Exception e0 = false
               /\ e = await_raises e0).
Proof.
  intros run simulate left. split; [|split].
  - unfold run. by rewrite !run_load_test_collect.
  - intros ms Hms. split; [|by apply (run_load_test_Ok _ _ _ _ _ _ _ _ _ Hms)].
    unfold run in Hms. rewrite run_load_test_collect in Hms.
    by eapply unawaited_Ok.
  - intros (task & e0 & Hin & Ht & Hc)%(unawaited_Raise _ []).
    eapply elem_of_Permutation_proper in Hin;
      [|symmetry; apply as_completed_Permutation].
    apply list_elem_of_fmap in Hin as (u & -> & Hu).
    destruct (user_loop_Raise _ _ _ _ _ _ _ Ht) as (obs & _ & _ & He).
    exists (await_raises e0).
    split; [unfold run; by rewrite run_load_test_collect|].
    split; [by apply await_raises_not_Exception|]. by exists u, e0.
Qed.

Lemma run_load_test_duration_unused_witness :
  let run :=
    run_load_test {| baseline_memory := 0 |} "memory_store"
      (fun u i => observe (Ok ())) 1000 2 3 (fun _ => 1%nat) in
  let interrupted :=
    run_load_test {| baseline_memory := 0 |} "memory_store"
      (first_user_ends (Raise (Exn KeyboardInterrupt "")))
      1000 2 1 (fun _ => 0%nat) in
  (run 30%Z).2 = (run 60%Z).2
  /\ (exists ms,
        (run 30%Z).2 = Ok ms
        /\ run_load_test_unawaited {| baseline_memory := 0 |} "memory_store"
             (fun u i => observe (Ok ())) 1000 2 3 (fun _ => 1%nat) = []
        /\ ms ≡ₚ concat (metrics_of
                          ∘ user_simulation {| baseline_memory := 0 |}
                              "memory_store" (fun u i => observe (Ok ()))
                              1000 2 3
                          <$> range 2))
  /\ exists e, (interrupted 30%Z).2 = Raise e /\ is_Exception e = false.
Proof.
  intros run interrupted. split; [|split].
  - apply (proj1 (run_load_test_duration_unused {| baseline_memory := 0 |}
                    "memory_store" (fun u i => observe (Ok ()))
                    1000 2 3 (fun _ => 1%nat) 30 60)).
  - eexists. split; [reflexivity|].
    destruct (proj1 (proj2 (run_load_test_duration_unused
                {| baseline_memory := 0 |}
                "memory_store" (fun u i => observe (Ok ()))
                1000 2 3 (fun _ => 1%nat) 30 60)) _ eq_refl)
      as (Hnone & _ & Hperm).
    split; [exact Hnone|exact Hperm].
  - destruct (proj2 (proj2 (run_load_test_duration_unused
                {| baseline_memory := 0 |} "memory_store"
                (first_user_ends (Raise (Exn KeyboardInterrupt "")))
                1000 2 1 (fun _ => 0%nat) 30 60)))
      as (e & He & Hcls & _); [discriminate|].
    exists e. split; [exact He|exact Hcls].
Defined.

(** ** The comparison *)

Lemma by_op_singleton (r : BR.t) : by_op [r] = {[BR.operation r := r]}.
Proof. unfold by_op. simpl. apply insert_empty. Qed.

(** Comparing one current with one target summary of the same operation
    is comparing that operation. *)
Lemma compare_systems_pair (current target : BR.t) :
  BR.operation target = BR.operation current ->
  compare_systems [current] [target]
  = d ← compare_operation current target;
    mret {| summary := ∅;
            detailed_comparison := {[BR.operation current := d]};
            migration_targets_assessment := ∅ |}.
Proof.
  intros Hop. unfold compare_systems.
  rewrite !by_op_singleton, Hop.
  rewrite map_zip_with_singleton, map_to_list_singleton.
  simpl. destruct (compare_operation current target) as [d|e]; simpl; [|done].
  by rewrite insert_empty.
Qed.

Lemma truediv_nonzero (a b : R) : b <> 0 -> truediv a b = Ok (a / b).
Proof. intros Hb. unfold truediv. by destruct (Req_dec_T b 0). Qed.

Lemma truediv_zero (a : R) :
  truediv a 0 = Raise (Exn ZeroDivisionError "float division by zero").
Proof. unfold truediv. by destruct (Req_dec_T 0 0). Qed.

Lemma flag_10x_nonzero (current target : BR.t) :
  BR.operation target = BR.operation current ->
  BR.latency_mean current <> 0 ->
  BR.throughput_mean current <> 0 ->
  BR.memory_usage_mean_mb current <> 0 ->
  flag_10x current target
  = Some (Rleb (BR.latency_p95 target) (BR.latency_p95 current / 10)).
Proof.
  intros Hop Hlat Hthr Hmem. unfold flag_10x.
  rewrite compare_systems_pair by done. unfold compare_operation.
  rewrite !truediv_nonzero by done.
  unfold mbind, result_bind, mret, result_ret. cbv beta iota.
  cbn [detailed_comparison]. by rewrite lookup_singleton_eq.
Qed.

(** C5, as the code has it: for a current and a target summary of the same
    operation, where the current mean latency, mean throughput and mean
    memory usage are not zero, a target p95 latency of exactly a tenth of
    the current one sets the flag, and a target p95 latency of a ninth of
    a positive current one clears it. *)
Theorem compare_systems_10x_flag (current target : BR.t) :
  BR.operation target = BR.operation current ->
  BR.latency_mean current <> 0 ->
  BR.throughput_mean current <> 0 ->
  BR.memory_usage_mean_mb current <> 0 ->
  (BR.latency_p95 target = BR.latency_p95 current / 10 ->
   flag_10x current target = Some true)
  /\ (0 < BR.latency_p95 current ->
      BR.latency_p95 target = BR.latency_p95 current / 9 ->
      flag_10x current target = Some false).
Proof.
  intros Hop Hlat Hthr Hmem.
  rewrite flag_10x_nonzero by done. unfold Rleb. split.
  - intros ->. by destruct (Rle_dec _ _); [|lra].
  - intros Hpos ->. destruct (Rle_dec _ _); [lra|done].
Qed.

Lemma compare_systems_10x_flag_witness :
  flag_10x (sample_summary 200 250 12) (sample_summary 20 (250 / 10) 60)
  = Some true
  /\ flag_10x (sample_summary 200 250 12) (sample_summary 20 (250 / 9) 60)
     = Some false.
Proof.
  split.
  - apply (proj1 (compare_systems_10x_flag (sample_summary 200 250 12)
                    (sample_summary 20 (250 / 10) 60)
                    eq_refl ltac:(simpl; lra) ltac:(simpl; lra)
                    ltac:(simpl; lra))).
    reflexivity.
  - apply (proj2 (compare_systems_10x_flag (sample_summary 200 250 12)
                    (sample_summary 20 (250 / 9) 60)
                    eq_refl ltac:(simpl; lra) ltac:(simpl; lra)
                    ltac:(simpl; lra))).
    + simpl. lra.
    + reflexivity.
Defined.

(** C5, as stated, fails: with a current p95 latency of [0], a ninth of it
    is [0] as well, and the comparison [0 <= 0 / 10] sets the flag. *)
Lemma compare_systems_zero_p95 :
  ~ (forall current target : BR.t,
       BR.operation target = BR.operation current ->
       (BR.latency_p95 target = BR.latency_p95 current / 10 ->
        flag_10x current target = Some true)
       /\ (BR.latency_p95 target = BR.latency_p95 current / 9 ->
           flag_10x current target = Some false)).
Proof.
  intros Hclaim.
  destruct (Hclaim (sample_summary 200 0 12) (sample_summary 20 0 60)
              eq_refl) as [_ Hninth].
  rewrite flag_10x_nonzero in Hninth; [|reflexivity|simpl; lra..].
  unfold Rleb in Hninth. cbn [BR.latency_p95 sample_summary] in Hninth.
  destruct (Rle_dec 0 (0 / 10)) as [_|Hn]; [|lra].
  assert (Some true = Some false) as [=]. apply Hninth. lra.
Qed.

(** The summary of a run in which every record failed has mean [0]; the
    comparison then divides by zero. *)
Lemma compare_systems_zero_mean (target : BR.t) :
  BR.operation target = "memory_search" ->
  compare_systems [sample_summary 0 0 0] [target]
  = Raise (Exn ZeroDivisionError "float division by zero").
Proof.
  intros Hop. rewrite compare_systems_pair by done.
  unfold compare_operation. cbn [BR.latency_mean sample_summary].
  rewrite (truediv_zero (0 - BR.latency_mean target)). reflexivity.
Qed.

(** ** The pre-edit hook *)

Section pre_edit_facts.

Variables HookEventContent HookEvent : Type.
Variable HookEventContent_new :
  HookEventContent_args -> result HookEventContent.
Variable HookEvent_new : HookEventContent -> result HookEvent.
Variable asyncio_run_save : HookEvent -> result ().

Abbreviation handle :=
  (handle_pre_edit HookEventContent HookEvent
     HookEventContent_new HookEvent_new asyncio_run_save).

(** What the hook returns or raises is decided by the first of the three
    calls that raises. *)
Lemma handle_pre_edit_cases file_paths tool_name session_id :
  match handle file_paths tool_name session_id with
  | Ok d => d !! "proceed" = Some (VBool true)
  | Raise e =>
    is_Exception e = false
    /\ ((exists args, HookEventContent_new args = Raise e)
        \/ (exists content, HookEvent_new content = Raise e)
        \/ (exists event, asyncio_run_save event = Raise e))
  end.
Proof.
  unfold handle_pre_edit, try_except, mbind, result_bind, mret, result_ret.
  destruct (HookEventContent_new _) as [content|e] eqn:Hcontent.
  - destruct (HookEvent_new content) as [event|e] eqn:Hevent.
    + destruct (asyncio_run_save event) as [[]|e] eqn:Hsave.
      * by rewrite lookup_insert_eq.
      * destruct (is_Exception e) eqn:He; [by rewrite lookup_insert_eq|].
        rewrite He. eauto 6.
    + destruct (is_Exception e) eqn:He; [by rewrite lookup_insert_eq|].
      eauto 6.
  - destruct (is_Exception e) eqn:He; [by rewrite lookup_insert_eq|].
    eauto 6.
Qed.

(** C9, as the code has it: for every list of file paths, tool name and
    session id, when building and saving the hook event return or raise
    errors that are [Exception]s, the handler returns a dict whose
    ["proceed"] is [True]; the only errors that it lets through are those
    that are not [Exception]s. *)
Theorem handle_pre_edit_proceeds file_paths tool_name session_id :
  ((forall args e, HookEventContent_new args = Raise e ->
      is_Exception e = true) ->
   (forall content e, HookEvent_new content = Raise e ->
      is_Exception e = true) ->
   (forall event e, asyncio_run_save event = Raise e ->
      is_Exception e = true) ->
   exists d : gmap string value,
     handle file_paths tool_name session_id = Ok d
     /\ d !! "proceed" = Some (VBool true))
  /\ (forall e, handle file_paths tool_name session_id = Raise e ->
        is_Exception e = false).
Proof.
  pose proof (handle_pre_edit_cases file_paths tool_name session_id) as Hcases.
  split.
  - intros Hcontent Hevent Hsave.
    destruct (handle file_paths tool_name session_id) as [d|e];
      [by exists d|].
    destruct Hcases as [He [[args Hr]|[[content Hr]|[event Hr]]]].
    + by rewrite (Hcontent _ _ Hr) in He.
    + by rewrite (Hevent _ _ Hr) in He.
    + by rewrite (Hsave _ _ Hr) in He.
  - intros e He. rewrite He in Hcases. apply Hcases.
Qed.

End pre_edit_facts.

Lemma handle_pre_edit_proceeds_witness :
  exists d : gmap string value,
    handle_pre_edit unit unit (fun _ => Ok ()) (fun _ => Ok ())
      (fun _ => Raise (Exn RuntimeError "database is locked"))
      ["src/main.py"] "Edit" (Some "session-1") = Ok d
    /\ d !! "proceed" = Some (VBool true).
Proof.
  apply (proj1 (handle_pre_edit_proceeds unit unit
                  (fun _ => Ok ()) (fun _ => Ok ())
                  (fun _ => Raise (Exn RuntimeError "database is locked"))
                  ["src/main.py"] "Edit" (Some "session-1"))).
  - intros args e [=].
  - intros content e [=].
  - intros event e [= <-]. reflexivity.
Defined.

(** C9, as stated, fails: a [KeyboardInterrupt] while the event is saved
    passes both handlers and leaves the hook. *)
Lemma handle_pre_edit_interrupted :
  ~ (forall (HookEventContent HookEvent : Type)
            (HookEventContent_new :
               HookEventContent_args -> result HookEventContent)
            (HookEvent_new : HookEventContent -> result HookEvent)
            (asyncio_run_save : HookEvent -> result ())
            file_paths tool_name session_id,
       exists d : gmap string value,
         handle_pre_edit HookEventContent HookEvent HookEventContent_new
           HookEvent_new asyncio_run_save file_paths tool_name session_id
         = Ok d
         /\ d !! "proceed" = Some (VBool true)).
Proof.
  intros Hclaim.
  destruct (Hclaim unit unit (fun _ => Ok ()) (fun _ => Ok ())
              (fun _ => Raise (Exn KeyboardInterrupt ""))
              ["src/main.py"] "Edit" None)
    as (d & Hd & _).
  discriminate Hd.
Qed.

(** * Further properties *)

(** ** The summary as a function of the list of metrics *)

(** The fields of a summary that are not latency or throughput statistics,
    read off the list it was computed from. *)
Lemma analyze_metrics_fields t_ppf now (metrics : list PM.t) r :
  analyze_metrics t_ppf now metrics = Ok r ->
  let ok := List.filter succeeded metrics in
  BR.sample_count r = length metrics
  /\ BR.total_errors r = length (List.filter failed metrics)
  /\ BR.error_rate r
     = INR (length (List.filter failed metrics)) / INR (length metrics)
  /\ BR.memory_usage_mean_mb r
     = if_nonempty (PM.memory_usage_mb <$> ok)
         (mean (PM.memory_usage_mb <$> ok))
  /\ BR.cpu_usage_mean_percent r
     = if_nonempty (PM.cpu_usage_percent <$> ok)
         (mean (PM.cpu_usage_percent <$> ok))
  /\ BR.timestamp r = now
  /\ exists first rest,
       metrics = first :: rest
       /\ BR.operation r = PM.operation first
       /\ BR.test_duration_seconds r
          = PM.timestamp (List.last metrics first) - PM.timestamp first.
Proof.
  destruct metrics as [|first rest]; [discriminate|].
  unfold analyze_metrics. intros [= <-]. cbv zeta.
  repeat (split; [reflexivity|]). by exists first, rest.
Qed.

(** X1: the error rate of a summary lies between [0] and [1]; the sample
    count is the number of successful records plus the number of errors;
    the rate is [0] exactly when nothing failed and [1] exactly when
    nothing succeeded. *)
Theorem analyze_metrics_error_rate_bounds t_ppf now (metrics : list PM.t) r :
  analyze_metrics t_ppf now metrics = Ok r ->
  0 <= BR.error_rate r <= 1
  /\ BR.sample_count r
     = (length (List.filter succeeded metrics) + BR.total_errors r)%nat
  /\ (BR.error_rate r = 0 <-> BR.total_errors r = 0%nat)
  /\ (BR.error_rate r = 1 <-> List.filter succeeded metrics = []).
Proof.
  intros Hr.
  destruct (analyze_metrics_fields _ _ _ _ Hr)
    as (Hn & Hk & Hrate & _ & _ & _ & first & rest & Hm & _).
  pose proof (filter_failed_length metrics) as Hlen.
  rewrite Hn, Hk, Hrate. clear Hn Hk Hrate Hr.
  set (k := length (List.filter failed metrics)) in *.
  set (n := length metrics) in *.
  assert (0 < n)%nat as Hpos by (unfold n; rewrite Hm; simpl; lia).
  assert (0 < INR n) as HposR by (by apply lt_0_INR).
  assert (0 <= INR k <= INR n) as [Hk0 Hkn]
    by (split; [apply pos_INR|apply le_INR; lia]).
  assert (INR n * / INR n = 1) as Hinv by (apply Rinv_r; lra).
  assert (0 < / INR n) as Hinvpos by (by apply Rinv_0_lt_compat).
  unfold Rdiv. split; [split; nra|]. split; [lia|]. split; [split|split].
  - intros H0. apply INR_eq. simpl. nra.
  - intros ->. simpl. lra.
  - intros H1. apply length_zero_iff_nil.
    assert (INR k = INR n) as Heq%INR_eq by nra. lia.
  - intros Hnil. rewrite Hnil in Hlen. simpl in Hlen. rewrite Hlen. lra.
Qed.

Lemma analyze_metrics_error_rate_bounds_witness :
  exists r,
    analyze_metrics sample_t_ppf 0
      [sample_metric 5 None; sample_metric 7 (Some "timeout")] = Ok r
    /\ 0 <= BR.error_rate r <= 1.
Proof.
  eexists. split; [reflexivity|].
  eapply (analyze_metrics_error_rate_bounds sample_t_ppf 0
            [sample_metric 5 None; sample_metric 7 (Some "timeout")]).
  reflexivity.
Defined.

(** ** Order of the records *)

#[local] Instance Rle_antisymm : AntiSymm eq Rle.
Proof. intros x y ? ?. lra. Qed.

Lemma sorted_Permutation_eq (l1 l2 : list R) :
  l1 ≡ₚ l2 -> sorted l1 = sorted l2.
Proof.
  intros Hperm.
  apply (StronglySorted_unique Rle); [apply sorted_StronglySorted..|].
  by rewrite !sorted_Permutation.
Qed.

Lemma sum_Permutation (l1 l2 : list R) : l1 ≡ₚ l2 -> sum l1 = sum l2.
Proof.
  induction 1 as [|x l1 l2 _ IH|x y l|l1 l2 l3 _ IH1 _ IH2];
    rewrite ?sum_cons; [done|lra|lra|congruence].
Qed.

Lemma filter_Permutation {A} (f : A -> bool) (l1 l2 : list A) :
  l1 ≡ₚ l2 -> List.filter f l1 ≡ₚ List.filter f l2.
Proof.
  induction 1 as [|x l1 l2 _ IH|x y l|l1 l2 l3 _ IH1 _ IH2]; simpl.
  - done.
  - destruct (f x); by rewrite IH.
  - destruct (f x), (f y); try done. apply Permutation_swap.
  - by etrans.
Qed.

Lemma mean_Permutation (l1 l2 : list R) : l1 ≡ₚ l2 -> mean l1 = mean l2.
Proof.
  intros Hperm. unfold mean.
  by rewrite (sum_Permutation _ _ Hperm), (Permutation_length Hperm).
Qed.

Lemma median_Permutation (l1 l2 : list R) :
  l1 ≡ₚ l2 -> median l1 = median l2.
Proof.
  intros Hperm. unfold median. by rewrite (sorted_Permutation_eq _ _ Hperm).
Qed.

Lemma percentile_Permutation (l1 l2 : list R) p :
  l1 ≡ₚ l2 -> percentile l1 p = percentile l2 p.
Proof.
  intros Hperm. unfold percentile, np_percentile.
  rewrite (sorted_Permutation_eq _ _ Hperm).
  destruct l1, l2; try done.
  - by apply Permutation_nil_cons in Hperm.
  - symmetry in Hperm. by apply Permutation_nil_cons in Hperm.
Qed.

Lemma stdev_Permutation (l1 l2 : list R) : l1 ≡ₚ l2 -> stdev l1 = stdev l2.
Proof.
  intros Hperm. unfold stdev, variance.
  rewrite (mean_Permutation _ _ Hperm), (Permutation_length Hperm).
  by rewrite (sum_Permutation _ _ (fmap_Permutation _ _ _ Hperm)).
Qed.

Lemma calculate_confidence_interval_Permutation t_ppf (l1 l2 : list R) :
  l1 ≡ₚ l2 ->
  calculate_confidence_interval t_ppf l1
  = calculate_confidence_interval t_ppf l2.
Proof.
  intros Hperm.
  unfold calculate_confidence_interval, calculate_confidence_interval_with,
    sem.
  by rewrite (mean_Permutation _ _ Hperm), (stdev_Permutation _ _ Hperm),
    (Permutation_length Hperm).
Qed.

Lemma if_nonempty_Permutation {A} (l1 l2 : list A) (x : R) :
  l1 ≡ₚ l2 -> if_nonempty l1 x = if_nonempty l2 x.
Proof.
  intros Hperm. destruct l1, l2; try done.
  - by apply Permutation_nil_cons in Hperm.
  - symmetry in Hperm. by apply Permutation_nil_cons in Hperm.
Qed.

Lemma latency_summary_Permutation t_ppf (l1 l2 : list R) :
  l1 ≡ₚ l2 -> latency_summary t_ppf l1 = latency_summary t_ppf l2.
Proof.
  intros Hperm. unfold latency_summary.
  by rewrite (mean_Permutation _ _ Hperm), (median_Permutation _ _ Hperm),
    !(percentile_Permutation _ _ _ Hperm), (stdev_Permutation _ _ Hperm),
    (calculate_confidence_interval_Permutation _ _ _ Hperm),
    (Permutation_length Hperm), !(if_nonempty_Permutation _ _ _ Hperm).
Qed.

Lemma throughput_summary_Permutation t_ppf (l1 l2 : list R) :
  l1 ≡ₚ l2 -> throughput_summary t_ppf l1 = throughput_summary t_ppf l2.
Proof.
  intros Hperm. unfold throughput_summary.
  by rewrite (mean_Permutation _ _ Hperm), (median_Permutation _ _ Hperm),
    (stdev_Permutation _ _ Hperm),
    (calculate_confidence_interval_Permutation _ _ _ Hperm),
    (Permutation_length Hperm), !(if_nonempty_Permutation _ _ _ Hperm).
Qed.

(** X2: the statistics of a summary do not depend on the order of the
    records: a reordered list gives the same counts, error rate, latency
    and throughput statistics and resource means. *)
Theorem analyze_metrics_order_insensitive
    t_ppf now now' (metrics metrics' : list PM.t) r :
  metrics ≡ₚ metrics' ->
  analyze_metrics t_ppf now metrics = Ok r ->
  exists r',
    analyze_metrics t_ppf now' metrics' = Ok r'
    /\ BR.sample_count r' = BR.sample_count r
    /\ BR.total_errors r' = BR.total_errors r
    /\ BR.error_rate r' = BR.error_rate r
    /\ latency_stats r' = latency_stats r
    /\ throughput_stats r' = throughput_stats r
    /\ BR.memory_usage_mean_mb r' = BR.memory_usage_mean_mb r
    /\ BR.cpu_usage_mean_percent r' = BR.cpu_usage_mean_percent r.
Proof.
  intros Hperm Hr.
  destruct (analyze_metrics t_ppf now' metrics') as [r'|e] eqn:Hr'.
  2: { destruct metrics' as [|m ms]; [|discriminate Hr'].
       apply Permutation_nil_r in Hperm as ->. discriminate Hr. }
  exists r'. split; [done|].
  destruct (analyze_metrics_fields _ _ _ _ Hr)
    as (-> & -> & -> & -> & -> & _).
  destruct (analyze_metrics_fields _ _ _ _ Hr')
    as (-> & -> & -> & -> & -> & _).
  destruct (analyze_metrics_stats _ _ _ _ Hr) as [-> ->].
  destruct (analyze_metrics_stats _ _ _ _ Hr') as [-> ->].
  pose proof (filter_Permutation succeeded _ _ Hperm) as Hok.
  pose proof (filter_Permutation failed _ _ Hperm) as Hfail.
  rewrite <- (Permutation_length Hperm), <- (Permutation_length Hfail).
  repeat (split; [done|]).
  split; [|split; [|split]].
  - symmetry. by apply latency_summary_Permutation, fmap_Permutation.
  - symmetry. by apply throughput_summary_Permutation, fmap_Permutation.
  - symmetry.
    rewrite (mean_Permutation _ _
               (fmap_Permutation PM.memory_usage_mb _ _ Hok)).
    by apply if_nonempty_Permutation, fmap_Permutation.
  - symmetry.
    rewrite (mean_Permutation _ _
               (fmap_Permutation PM.cpu_usage_percent _ _ Hok)).
    by apply if_nonempty_Permutation, fmap_Permutation.
Qed.

Lemma analyze_metrics_order_insensitive_witness :
  exists r r',
    analyze_metrics sample_t_ppf 0
      [sample_metric 5 None; sample_metric 7 (Some "timeout")] = Ok r
    /\ analyze_metrics sample_t_ppf 1
         [sample_metric 7 (Some "timeout"); sample_metric 5 None] = Ok r'
    /\ latency_stats r' = latency_stats r.
Proof.
  destruct (analyze_metrics_order_insensitive sample_t_ppf 0 1
              [sample_metric 5 None; sample_metric 7 (Some "timeout")]
              [sample_metric 7 (Some "timeout"); sample_metric 5 None]
              _ (Permutation_swap _ _ []) eq_refl)
    as (r' & Hr' & _ & _ & _ & Hlat & _).
  eexists _, r'. split; [reflexivity|]. split; [exact Hr'|exact Hlat].
Defined.

(** ** Location of the central statistics *)

Lemma sum_lower_bound (a : R) (l : list R) :
  (forall x, x ∈ l -> a <= x) -> INR (length l) * a <= sum l.
Proof.
  induction l as [|y l IH]; intros Hl; [simpl; lra|].
  rewrite sum_cons. change (length (y :: l)) with (S (length l)).
  rewrite S_INR.
  assert (a <= y) by (apply Hl; left).
  assert (INR (length l) * a <= sum l)
    by (apply IH; intros; apply Hl; by right).
  lra.
Qed.

Lemma sum_upper_bound (b : R) (l : list R) :
  (forall x, x ∈ l -> x <= b) -> sum l <= INR (length l) * b.
Proof.
  induction l as [|y l IH]; intros Hl; [simpl; lra|].
  rewrite sum_cons. change (length (y :: l)) with (S (length l)).
  rewrite S_INR.
  assert (y <= b) by (apply Hl; left).
  assert (sum l <= INR (length l) * b)
    by (apply IH; intros; apply Hl; by right).
  lra.
Qed.

Lemma Rdiv_between (a b s n : R) :
  0 < n -> n * a <= s -> s <= n * b -> a <= s / n <= b.
Proof.
  intros Hn Hlo Hhi.
  assert (s / n * n = s) as Hs by (field; lra).
  split; apply (Rmult_le_reg_r n); lra.
Qed.

Lemma mean_bounds (data : list R) :
  data <> [] -> minimum data <= mean data <= maximum data.
Proof.
  intros Hne. unfold mean.
  assert (0 < INR (length data)) as Hn
    by (apply lt_0_INR; destruct data; [done|simpl; lia]).
  apply Rdiv_between; [done|..].
  - apply sum_lower_bound, minimum_le.
  - apply sum_upper_bound, le_maximum.
Qed.

Lemma nth_sorted_bounds (data : list R) (i : nat) :
  (i < length data)%nat ->
  minimum data <= nth i (sorted data) 0 <= maximum data.
Proof.
  intros Hi. pose proof (nth_sorted_elem_of data i Hi).
  split; [by apply minimum_le|by apply le_maximum].
Qed.

Lemma median_bounds (data : list R) :
  data <> [] -> minimum data <= median data <= maximum data.
Proof.
  intros Hne. unfold median. rewrite length_sorted.
  assert (0 < length data)%nat as Hn by (destruct data; [done|simpl; lia]).
  assert (length data / 2 < length data)%nat as Hhalf
    by (apply Nat.div_lt; lia).
  destruct (Nat.odd (length data)) eqn:Hodd.
  - by apply nth_sorted_bounds.
  - pose proof (nth_sorted_bounds data (length data / 2) Hhalf).
    assert (length data / 2 - 1 < length data)%nat as Hprev by lia.
    pose proof (nth_sorted_bounds data _ Hprev).
    lra.
Qed.

(** X3: when at least one record is successful, the mean and the median
    latency of the summary lie between the smallest and the largest
    latency of the successful records, and likewise for the throughput. *)
Theorem analyze_metrics_mean_median_bounds
    t_ppf now (metrics : list PM.t) r :
  analyze_metrics t_ppf now metrics = Ok r ->
  List.filter succeeded metrics <> [] ->
  let latencies := PM.latency_ms <$> List.filter succeeded metrics in
  let throughputs :=
    PM.throughput_ops_per_sec <$> List.filter succeeded metrics in
  minimum latencies <= BR.latency_mean r <= maximum latencies
  /\ minimum latencies <= BR.latency_median r <= maximum latencies
  /\ minimum throughputs <= BR.throughput_mean r <= maximum throughputs
  /\ minimum throughputs <= BR.throughput_median r <= maximum throughputs.
Proof.
  intros Hr Hok latencies throughputs.
  destruct (analyze_metrics_stats _ _ _ _ Hr) as [Hlat Hthr].
  fold latencies in Hlat. fold throughputs in Hthr.
  injection Hlat as -> -> _. injection Hthr as -> -> _.
  assert (latencies <> [] /\ throughputs <> []) as [Hl Ht].
  { unfold latencies, throughputs.
    destruct (List.filter succeeded metrics); [done|]. by split. }
  assert (forall l : list R, l <> [] ->
            if_nonempty l (mean l) = mean l
            /\ if_nonempty l (median l) = median l) as Hif
    by (by intros [|??]).
  destruct (Hif _ Hl) as [-> ->]. destruct (Hif _ Ht) as [-> ->].
  repeat split; try (by apply mean_bounds); by apply median_bounds.
Qed.

Lemma analyze_metrics_mean_median_bounds_witness :
  exists r,
    analyze_metrics sample_t_ppf 0
      [sample_metric 5 None; sample_metric 7 (Some "timeout")] = Ok r
    /\ minimum [5] <= BR.latency_mean r <= maximum [5].
Proof.
  eexists. split; [reflexivity|].
  eapply (analyze_metrics_mean_median_bounds sample_t_ppf 0
            [sample_metric 5 None; sample_metric 7 (Some "timeout")]).
  - reflexivity.
  - discriminate.
Defined.

(** ** Degenerate samples *)

Lemma Int_part_0 : Int_part 0 = 0%Z.
Proof. apply (Int_part_INR 0). Qed.

Lemma np_percentile_singleton (x p : R) : np_percentile [x] p = x.
Proof.
  unfold np_percentile, interpolate. cbn [sorted foldr insert_sorted length].
  replace ((INR 1 - 1) * (p / 100)) with 0 by (simpl; lra).
  rewrite Int_part_0, lerp_eq. simpl. lra.
Qed.

Lemma mean_singleton (x : R) : mean [x] = x.
Proof. unfold mean, sum. simpl. lra. Qed.

Lemma median_singleton (x : R) : median [x] = x.
Proof. reflexivity. Qed.

(** X4: with exactly one successful record the mean, the median and both
    percentiles are its latency, while the standard deviation is [0] and
    the confidence interval is [(0, 0)], whatever that latency is. *)
Theorem analyze_metrics_single_success
    t_ppf now (metrics : list PM.t) (m : PM.t) r :
  analyze_metrics t_ppf now metrics = Ok r ->
  List.filter succeeded metrics = [m] ->
  latency_stats r
  = [PM.latency_ms m; PM.latency_ms m; PM.latency_ms m; PM.latency_ms m;
     0; 0; 0]
  /\ throughput_stats r
     = [PM.throughput_ops_per_sec m; PM.throughput_ops_per_sec m; 0; 0; 0].
Proof.
  intros Hr Hok.
  destruct (analyze_metrics_stats _ _ _ _ Hr) as [-> ->]. rewrite Hok.
  unfold latency_summary, throughput_summary.
  cbn [fmap list_fmap if_nonempty percentile].
  by rewrite !mean_singleton, !median_singleton, !np_percentile_singleton.
Qed.

Lemma analyze_metrics_single_success_witness :
  exists r,
    analyze_metrics sample_t_ppf 0
      [sample_metric 5 None; sample_metric 7 (Some "timeout")] = Ok r
    /\ latency_stats r = [5; 5; 5; 5; 0; 0; 0].
Proof.
  eexists. split; [reflexivity|].
  eapply (analyze_metrics_single_success sample_t_ppf 0
            [sample_metric 5 None; sample_metric 7 (Some "timeout")]
            (sample_metric 5 None)); reflexivity.
Defined.

(** ** The duration of a run *)

Lemma last_reverse_cons {A} (x d : A) (l : list A) :
  List.last (reverse (x :: l)) d = x.
Proof. rewrite reverse_cons. apply last_last. Qed.

(** X6: the duration of a summary is the timestamp of the last record
    minus that of the first, in the order of the list, which is not
    sorted: the reversed list has the opposite duration. *)
Theorem analyze_metrics_duration_reversed
    t_ppf now (metrics : list PM.t) r :
  analyze_metrics t_ppf now metrics = Ok r ->
  exists first last rest r',
    metrics = first :: rest
    /\ List.last metrics first = last
    /\ BR.test_duration_seconds r = PM.timestamp last - PM.timestamp first
    /\ analyze_metrics t_ppf now (reverse metrics) = Ok r'
    /\ BR.test_duration_seconds r' = - BR.test_duration_seconds r.
Proof.
  intros Hr.
  destruct (analyze_metrics_fields _ _ _ _ Hr)
    as (_ & _ & _ & _ & _ & _ & first & rest & -> & _ & Hd).
  destruct (analyze_metrics t_ppf now (reverse (first :: rest)))
    as [r'|e] eqn:Hr'.
  2: { destruct (reverse (first :: rest)) eqn:Hrev; [|discriminate Hr'].
       apply (f_equal length) in Hrev. rewrite length_reverse in Hrev.
       discriminate Hrev. }
  exists first, (List.last (first :: rest) first), rest, r'.
  repeat (split; [done|]).
  destruct (analyze_metrics_fields _ _ _ _ Hr')
    as (_ & _ & _ & _ & _ & _ & first' & rest' & Hrev & _ & Hd').
  rewrite Hd, Hd', last_reverse_cons.
  assert (first' = List.last (first :: rest) first) as ->; [|lra].
  rewrite <- (reverse_involutive (first :: rest)), Hrev.
  by rewrite last_reverse_cons.
Qed.

Lemma analyze_metrics_duration_reversed_witness :
  exists r r',
    analyze_metrics sample_t_ppf 0
      [sample_metric 5 None; sample_metric 7 (Some "timeout")] = Ok r
    /\ analyze_metrics sample_t_ppf 0
         (reverse [sample_metric 5 None; sample_metric 7 (Some "timeout")])
       = Ok r'
    /\ BR.test_duration_seconds r' = - BR.test_duration_seconds r.
Proof.
  destruct (analyze_metrics_duration_reversed sample_t_ppf 0
              [sample_metric 5 None; sample_metric 7 (Some "timeout")]
              _ eq_refl)
    as (first & last & rest & r' & _ & _ & _ & Hr' & Hd).
  eexists _, r'. split; [reflexivity|]. split; [exact Hr'|exact Hd].
Defined.

(** ** The percentile as a function of [p] *)

Lemma foldl_Rmin_elem_of (l : list R) (x : R) : foldl Rmin x l ∈ x :: l.
Proof.
  revert x. induction l as [|y l IH]; intros x; simpl; [left|].
  specialize (IH (Rmin x y)). apply elem_of_cons in IH as [->|IH].
  - unfold Rmin. destruct (Rle_dec x y); [left|right; left].
  - by do 2 right.
Qed.

Lemma foldl_Rmax_elem_of (l : list R) (x : R) : foldl Rmax x l ∈ x :: l.
Proof.
  revert x. induction l as [|y l IH]; intros x; simpl; [left|].
  specialize (IH (Rmax x y)). apply elem_of_cons in IH as [->|IH].
  - unfold Rmax. destruct (Rle_dec x y); [right; left|left].
  - by do 2 right.
Qed.

Lemma elem_of_nth_sorted (data : list R) (y : R) :
  y ∈ data ->
  exists j, (j < length data)%nat /\ nth j (sorted data) 0 = y.
Proof.
  intros Hy.
  assert (y ∈ sorted data) as Hin
    by (eapply elem_of_Permutation_proper; [apply sorted_Permutation|done]).
  apply list_elem_of_In, (In_nth _ _ 0) in Hin as (j & Hj & Hnth).
  rewrite length_sorted in Hj. by exists j.
Qed.

Lemma nth_sorted_first (data : list R) :
  data <> [] -> nth 0 (sorted data) 0 = minimum data.
Proof.
  intros Hne.
  assert (0 < length data)%nat as Hlen by (destruct data; [done|simpl; lia]).
  pose proof (nth_sorted_bounds data 0 Hlen) as [Hlo _].
  assert (minimum data ∈ data) as Hin
    by (destruct data; [done|apply foldl_Rmin_elem_of]).
  destruct (elem_of_nth_sorted _ _ Hin) as (j & Hj & Hnth).
  apply Rle_antisym; [|done]. rewrite <- Hnth.
  apply StronglySorted_nth_le;
    [apply sorted_StronglySorted|lia|by rewrite length_sorted].
Qed.

Lemma nth_sorted_last (data : list R) :
  data <> [] -> nth (length data - 1) (sorted data) 0 = maximum data.
Proof.
  intros Hne.
  assert (0 < length data)%nat as Hlen by (destruct data; [done|simpl; lia]).
  assert (length data - 1 < length data)%nat as Hlast by lia.
  pose proof (nth_sorted_bounds data _ Hlast) as [_ Hhi].
  assert (maximum data ∈ data) as Hin
    by (destruct data; [done|apply foldl_Rmax_elem_of]).
  destruct (elem_of_nth_sorted _ _ Hin) as (j & Hj & Hnth).
  apply Rle_antisym; [done|]. rewrite <- Hnth.
  apply StronglySorted_nth_le;
    [apply sorted_StronglySorted|lia|rewrite length_sorted; lia].
Qed.

(** X7: [percentile] is [0] on empty data; on other data it does not
    decrease as [p] grows from [0] to [100], it is the smallest value at
    [p = 0] and the largest at [p = 100]. *)
Theorem percentile_range (data : list R) :
  (data = [] -> forall p, percentile data p = 0)
  /\ (data <> [] ->
      percentile data 0 = minimum data
      /\ percentile data 100 = maximum data
      /\ forall p q, 0 <= p -> p <= q -> q <= 100 ->
           percentile data p <= percentile data q).
Proof.
  split; [by intros ->|]. intros Hne.
  assert (forall p, percentile data p = np_percentile data p) as Hp
    by (by destruct data).
  rewrite !Hp.
  assert (0 < length (sorted data))%nat as Hlen
    by (rewrite length_sorted; destruct data; [done|simpl; lia]).
  assert (1 <= INR (length (sorted data))) as HlenR
    by (apply (le_INR 1); lia).
  split; [|split].
  - unfold np_percentile.
    destruct (interpolate_spec (sorted data) (sorted_StronglySorted data)
                ((INR (length (sorted data)) - 1) * (0 / 100)))
      as (lo & Hlt & Hb & _ & ->); [lra|].
    assert (lo = 0%nat) as ->.
    { apply INR_eq. simpl. assert (INR lo < 1) by lra.
      pose proof (pos_INR lo).
      destruct lo; [done|]. rewrite S_INR in *. pose proof (pos_INR lo). lra. }
    rewrite nth_sorted_first by done. simpl. lra.
  - unfold np_percentile.
    destruct (interpolate_spec (sorted data) (sorted_StronglySorted data)
                ((INR (length (sorted data)) - 1) * (100 / 100)))
      as (lo & Hlt & Hb & _ & ->); [lra|].
    assert (lo = (length (sorted data) - 1)%nat) as ->.
    { apply INR_eq. rewrite minus_INR by lia. simpl.
      assert (INR lo <= INR (length (sorted data)) - 1) as Hle by lra.
      assert (INR (length (sorted data)) - 1 < INR lo + 1) as Hlt' by lra.
      assert (length (sorted data) < lo + 2)%nat as Hnat.
      { apply INR_lt. rewrite plus_INR. simpl. lra. }
      assert (lo = length (sorted data) - 1)%nat as -> by lia.
      rewrite minus_INR by lia. simpl. lra. }
    rewrite Nat.min_r by lia. rewrite length_sorted, nth_sorted_last by done.
    lra.
  - intros p q H0 Hpq H100. rewrite !Hp. by apply np_percentile_mono.
Qed.

Lemma percentile_range_witness :
  percentile [] 95 = 0
  /\ percentile [30; 10; 20] 0 = minimum [30; 10; 20]
  /\ percentile [30; 10; 20] 50 <= percentile [30; 10; 20] 95.
Proof.
  split; [by apply (proj1 (percentile_range []))|].
  destruct (proj2 (percentile_range [30; 10; 20])) as (Hmin & _ & Hmono);
    [done|].
  split; [exact Hmin|]. apply Hmono; lra.
Defined.

(** ** What the recorder measures *)

(** The metric that the recorder returns, field by field. *)
Lemma measure_operation_Ok monitor operation obs dataset_size users m :
  (measure_operation monitor operation obs dataset_size users).2 = Ok m ->
  m = {|
    PM.operation := operation;
    PM.latency_ms := (end_reading obs - start_reading obs) * 1000;
    PM.throughput_ops_per_sec :=
      if Rlt_dec (start_reading obs) (end_reading obs)
      then 1 / (end_reading obs - start_reading obs) else 0;
    PM.memory_usage_mb :=
      Rmax (get_current_usage monitor (end_sample obs)).1
           (get_current_usage monitor (start_sample obs)).1;
    PM.cpu_usage_percent :=
      Rmax (get_current_usage monitor (end_sample obs)).2
           (get_current_usage monitor (start_sample obs)).2;
    PM.timestamp := wall_clock obs;
    PM.concurrent_users := users;
    PM.dataset_size := dataset_size;
    PM.error :=
      match outcome obs with Ok _ => None | Raise e => Some (str e) end
  |}
  /\ (forall e, outcome obs = Raise e -> is_Exception e = true).
Proof.
  unfold measure_operation, get_current_usage. simpl.
  destruct (outcome obs) as [[]|e]; simpl.
  - intros [= <-]. by split.
  - destruct (is_Exception e) eqn:He; simpl; [|discriminate].
    intros [= <-]. split; [done|]. by intros ? [= <-].
Qed.

(** X8: in a metric the recorder returns, the latency is positive exactly
    when the second clock reading is later than the first, and then the
    throughput is positive too; when the clock did not advance the
    throughput is [0], so it is never negative.  The memory and CPU figures
    are the larger of the two readings, the memory one being the larger
    resident size in MB less the baseline. *)
Theorem measure_operation_readings
    monitor operation obs dataset_size users m :
  (measure_operation monitor operation obs dataset_size users).2 = Ok m ->
  (0 < PM.latency_ms m <-> start_reading obs < end_reading obs)
  /\ (0 < PM.latency_ms m -> 0 < PM.throughput_ops_per_sec m)
  /\ (PM.latency_ms m <= 0 -> PM.throughput_ops_per_sec m = 0)
  /\ 0 <= PM.throughput_ops_per_sec m
  /\ PM.memory_usage_mb m
     = Rmax (rss (end_sample obs)) (rss (start_sample obs)) / 1024 / 1024
       - baseline_memory monitor
  /\ PM.cpu_usage_percent m
     = Rmax (cpu_percent (end_sample obs)) (cpu_percent (start_sample obs)).
Proof.
  intros [-> _]%measure_operation_Ok.
  cbn [PM.throughput_ops_per_sec PM.latency_ms PM.memory_usage_mb
       PM.cpu_usage_percent].
  set (d := end_reading obs - start_reading obs).
  assert (Rmax (get_current_usage monitor (end_sample obs)).1
               (get_current_usage monitor (start_sample obs)).1
          = Rmax (rss (end_sample obs)) (rss (start_sample obs)) / 1024 / 1024
            - baseline_memory monitor) as Hmem.
  { unfold get_current_usage, Rmax. simpl. decide_Rle. }
  assert (0 < d -> 0 < 1 / d) as Hinv.
  { intros Hd. apply Rinv_0_lt_compat in Hd. unfold Rdiv. lra. }
  repeat split; try exact Hmem;
    destruct (Rlt_dec (start_reading obs) (end_reading obs)) as [Hlt|Hge];
    unfold d in *; intros; try lra; apply Hinv; lra.
Qed.

Lemma measure_operation_readings_witness :
  exists m,
    (measure_operation {| baseline_memory := 1 |} "memory_store"
       sample_observation 1000 1).2 = Ok m
    /\ 0 < PM.latency_ms m
    /\ 0 < PM.throughput_ops_per_sec m
    /\ PM.memory_usage_mb m = Rmax 3145728 2097152 / 1024 / 1024 - 1
    /\ PM.cpu_usage_percent m = Rmax 40 25.
Proof.
  eexists. split; [reflexivity|].
  destruct (measure_operation_readings {| baseline_memory := 1 |}
              "memory_store" sample_observation 1000 1 _ eq_refl)
    as (Hlat & Hthr & _ & _ & Hmem & Hcpu).
  assert (start_reading sample_observation < end_reading sample_observation)
    as Hclock by (simpl; lra).
  apply Hlat in Hclock.
  split; [exact Hclock|]. split; [exact (Hthr Hclock)|].
  split; [exact Hmem|exact Hcpu].
Defined.

(** ** More on the load-test driver *)

Section load_test_more.

Variable monitor : SystemMonitor.
Variable operation : string.
Variable env : nat -> nat -> observation.
Variable dataset_size concurrent_users samples_per_user : Z.

Abbreviation measure' obs :=
  (measure_operation monitor operation obs dataset_size concurrent_users).
Abbreviation record' :=
  (recorded monitor operation dataset_size concurrent_users).
Abbreviation loop :=
  (user_loop monitor operation dataset_size concurrent_users).
Abbreviation simulate' :=
  (user_simulation monitor operation env dataset_size concurrent_users
     samples_per_user).
Abbreviation run' :=
  (run_load_test monitor operation env dataset_size concurrent_users
     samples_per_user).

Lemma measure_operation_returned obs :
  returned (measure' obs).2 <-> passes obs.
Proof.
  pose proof (measure_operation_cases monitor operation obs dataset_size
                concurrent_users) as Hcases. simpl in Hcases.
  unfold passes, returned. split.
  - intros [m Hm] e He. rewrite He in Hcases.
    destruct (is_Exception e); [done|]. congruence.
  - intros Hpass. destruct (outcome obs) as [[]|e].
    + destruct Hcases as (m & Hm & _). by exists m.
    + rewrite (Hpass e eq_refl) in Hcases.
      destruct Hcases as (m & Hm & _). by exists m.
Qed.

(** The loop of a user returns exactly when every call passes, and what it
    raises otherwise was raised by one of its calls. *)
Lemma user_loop_returned (todo : list observation) (acc : list PM.t) :
  returned (loop todo acc).2 <-> Forall passes todo.
Proof.
  revert acc. induction todo as [|obs todo IH]; intros acc; simpl.
  - split; [by constructor|]. intros _. by exists acc.
  - rewrite Forall_cons, <- measure_operation_returned.
    destruct (measure' obs) as [lines [m|e]]; simpl.
    + specialize (IH (acc ++ [m])).
      destruct (loop todo (acc ++ [m])) as [lines' r']. simpl in *.
      rewrite IH. split; [|tauto]. intros Hall. split; [by exists m|done].
    + split; [by intros [? [=]]|by intros [[? [=]] _]].
Qed.

Abbreviation calls := (calls_of env concurrent_users samples_per_user).

Lemma elem_of_calls obs :
  obs ∈ calls <->
  exists u i, u ∈ range concurrent_users /\ i ∈ range samples_per_user
              /\ obs = env u i.
Proof.
  unfold calls_of. rewrite list_elem_of_bind. split.
  - intros (u & (i & -> & Hi)%list_elem_of_fmap & Hu). by exists u, i.
  - intros (u & i & Hu & Hi & ->). exists u. split; [|done].
    apply list_elem_of_fmap. by exists i.
Qed.

Lemma simulate_returned u :
  returned (simulate' u).2 <->
  forall i, i ∈ range samples_per_user -> passes (env u i).
Proof.
  unfold user_simulation.
  by rewrite user_loop_returned, Forall_fmap, Forall_forall.
Qed.

Lemma run_load_test_returned_passes choice duration_seconds :
  returned (run' choice duration_seconds).2 -> Forall passes calls.
Proof.
  rewrite run_load_test_collect. intros [ms Hms].
  apply collect_Ok in Hms as [Hall _].
  rewrite as_completed_Permutation, Forall_fmap, Forall_forall in Hall.
  apply Forall_forall. intros obs (u & i & Hu & Hi & ->)%elem_of_calls.
  by apply (simulate_returned u); [apply Hall|].
Qed.

(** X9: the driver returns a list exactly when every call it makes passes,
    that is, returns or raises an [Exception].  When the driver raises, its
    error is not an [Exception], and one of its calls raised an error that
    is not an [Exception] either: the driver's error is what awaiting the
    task of that call raises, the error of the call itself or, after a
    [KeyboardInterrupt] or a [SystemExit], a [CancelledError]. *)
Theorem run_load_test_returns_iff choice duration_seconds :
  (returned (run' choice duration_seconds).2 <-> Forall passes calls)
  /\ (forall e, (run' choice duration_seconds).2 = Raise e ->
        is_Exception e = false
        /\ exists obs e0,
             obs ∈ calls /\ outcome obs = Raise e0
             /\ is_Exception e0 = false /\ e = await_raises e0).
Proof.
  split; [split; [apply run_load_test_returned_passes|]|];
    rewrite run_load_test_collect.
  - intros Hall. eexists. apply collect_Ok. split; [|done].
    rewrite as_completed_Permutation. apply Forall_fmap, Forall_forall.
    intros u Hu. simpl. apply simulate_returned. intros i Hi.
    rewrite Forall_forall in Hall. apply Hall, elem_of_calls.
    by exists u, i.
  - intros e (task & e0 & Hin & Ht & ->)%collect_Raise.
    eapply elem_of_Permutation_proper in Hin;
      [|symmetry; apply as_completed_Permutation].
    apply list_elem_of_fmap in Hin as (u & -> & Hu).
    apply user_loop_Raise in Ht as (obs & Hobs & Hout & He).
    split; [by apply await_raises_not_Exception|]. exists obs, e0.
    split; [|done].
    apply list_elem_of_fmap in Hobs as (i & -> & Hi).
    apply elem_of_calls. by exists u, i.
Qed.

End load_test_more.

Lemma run_load_test_returns_iff_witness :
  returned
    (run_load_test {| baseline_memory := 0 |} "memory_store"
       (fun u i => observe (Raise (Exn RuntimeError "store is down")))
       1000 2 3 (fun _ => 1%nat) 60).2
  /\ is_Exception (Exn CancelledError EmptyString) = false.
Proof.
  split.
  - apply (proj1 (run_load_test_returns_iff {| baseline_memory := 0 |}
                    "memory_store"
                    (fun u i =>
                       observe (Raise (Exn RuntimeError "store is down")))
                    1000 2 3 (fun _ => 1%nat) 60)).
    apply Forall_forall. intros obs (u & i & _ & _ & ->)%elem_of_calls.
    intros e [= <-]. reflexivity.
  - apply (proj2 (run_load_test_returns_iff {| baseline_memory := 0 |}
                    "memory_store"
                    (fun u i =>
                       observe (Raise (Exn KeyboardInterrupt EmptyString)))
                    1000 1 1 (fun _ => 0%nat) 60)
             (Exn CancelledError EmptyString)).
    rewrite run_load_test_collect. reflexivity.
Defined.

Section load_test_results.

Variable monitor : SystemMonitor.
Variable operation : string.
Variable env : nat -> nat -> observation.
Variable dataset_size concurrent_users samples_per_user : Z.

Abbreviation measure_call obs :=
  (measure_operation monitor operation obs dataset_size concurrent_users).
Abbreviation record_of :=
  (recorded monitor operation dataset_size concurrent_users).
Abbreviation simulate_user :=
  (user_simulation monitor operation env dataset_size concurrent_users
     samples_per_user).
Abbreviation run_test :=
  (run_load_test monitor operation env dataset_size concurrent_users
     samples_per_user).
Abbreviation all_calls := (calls_of env concurrent_users samples_per_user).

Lemma length_calls :
  length all_calls
  = (Z.to_nat concurrent_users * Z.to_nat samples_per_user)%nat.
Proof.
  unfold calls_of, range.
  rewrite <- (length_seq (Z.to_nat concurrent_users) 0) at 2.
  induction (seq 0 (Z.to_nat concurrent_users)) as [|u us IH]; [done|].
  rewrite bind_cons, length_app, IH, length_fmap, length_seq. simpl. done.
Qed.

Lemma concat_fmap_bind {A B C} (h : A -> list C) (f : B -> C)
    (g : A -> list B) (us : list A) :
  (forall u, u ∈ us -> h u = f <$> g u) ->
  concat (h <$> us) = f <$> (us ≫= g).
Proof.
  induction us as [|u us IH]; intros Hh; [done|].
  rewrite fmap_cons, bind_cons, fmap_app. cbn [concat].
  rewrite (Hh u) by left. rewrite IH; [done|].
  intros u' Hu'. apply Hh. by right.
Qed.

(** When the driver returns, its result is the records of its calls, in
    some order. *)
Lemma run_load_test_records choice duration_seconds ms :
  (run_test choice duration_seconds).2 = Ok ms ->
  Forall passes all_calls /\ ms ≡ₚ record_of <$> all_calls.
Proof.
  intros Hms.
  assert (Forall passes all_calls) as Hall.
  { apply (run_load_test_returned_passes monitor operation env dataset_size
             concurrent_users samples_per_user choice duration_seconds).
    by exists ms. }
  split; [done|].
  destruct (run_load_test_Ok _ _ _ _ _ _ _ _ _ Hms) as [_ ->].
  rewrite (concat_fmap_bind _ record_of
             (fun u => env u <$> range samples_per_user)); [done|].
  intros u Hu. unfold metrics_of, compose, user_simulation.
  rewrite user_loop_returns; [done|].
  apply Forall_fmap, Forall_forall. intros i Hi. simpl.
  apply measure_operation_returned.
  rewrite Forall_forall in Hall. apply Hall, elem_of_calls. by exists u, i.
Qed.

Lemma recorded_passes obs :
  passes obs -> (measure_call obs).2 = Ok (record_of obs).
Proof.
  intros Hpass.
  destruct (proj2 (measure_operation_returned monitor operation
                     dataset_size concurrent_users obs) Hpass) as [m Hm].
  unfold recorded. by rewrite Hm.
Qed.

Lemma failed_recorded obs : passes obs -> failed (record_of obs) = raised obs.
Proof.
  intros Hm%recorded_passes. apply measure_operation_Ok in Hm as [-> _].
  unfold failed, raised. simpl. by destruct (outcome obs).
Qed.

Lemma filter_failed_recorded (obs : list observation) :
  Forall passes obs ->
  length (List.filter failed (record_of <$> obs))
  = length (List.filter raised obs).
Proof.
  induction 1 as [|o obs Ho _ IH]; [done|].
  rewrite fmap_cons. cbn [List.filter]. rewrite (failed_recorded o Ho).
  destruct (raised o); simpl; by rewrite IH.
Qed.

Lemma recorded_labels obs :
  passes obs ->
  PM.operation (record_of obs) = operation
  /\ PM.dataset_size (record_of obs) = dataset_size
  /\ PM.concurrent_users (record_of obs) = concurrent_users
  /\ PM.timestamp (record_of obs) = wall_clock obs
  /\ (PM.error (record_of obs) = None <-> raised obs = false).
Proof.
  intros Hrec%recorded_passes.
  apply measure_operation_Ok in Hrec as [-> _]. simpl.
  repeat (split; [done|]). unfold raised. by destruct (outcome obs).
Qed.

(** X10: every record that a load test returns carries the operation, the
    dataset size and the concurrency of that test, and its error is
    present exactly when the action of its call raised. *)
Theorem run_load_test_labels choice duration_seconds ms :
  (run_test choice duration_seconds).2 = Ok ms ->
  forall m, m ∈ ms ->
    PM.operation m = operation
    /\ PM.dataset_size m = dataset_size
    /\ PM.concurrent_users m = concurrent_users
    /\ exists obs,
         obs ∈ all_calls /\ PM.timestamp m = wall_clock obs
         /\ (PM.error m = None <-> raised obs = false).
Proof.
  intros [Hall Hperm]%run_load_test_records m Hm.
  eapply elem_of_Permutation_proper in Hm; [|symmetry; exact Hperm].
  apply list_elem_of_fmap in Hm as (obs & -> & Hobs).
  rewrite Forall_forall in Hall.
  destruct (recorded_labels obs (Hall obs Hobs)) as (? & ? & ? & ? & ?).
  repeat (split; [done|]). by exists obs.
Qed.

(** X11: the summary of what a load test returned counts one sample per
    call, [U * S] in all, is labelled with the operation, dataset size
    and concurrency of the test, and counts as errors the calls whose
    action raised; it exists exactly when the test made at least one
    call. *)
Theorem analyze_metrics_run_load_test
    t_ppf now choice duration_seconds ms :
  (run_test choice duration_seconds).2 = Ok ms ->
  (all_calls = [] ->
   analyze_metrics t_ppf now ms
   = Raise (Exn ValueError "No metrics to analyze"))
  /\ (all_calls <> [] ->
      exists r,
        analyze_metrics t_ppf now ms = Ok r
        /\ BR.sample_count r
           = (Z.to_nat concurrent_users * Z.to_nat samples_per_user)%nat
        /\ BR.operation r = operation
        /\ BR.dataset_size r = dataset_size
        /\ BR.concurrent_users r = concurrent_users
        /\ BR.total_errors r = length (List.filter raised all_calls)).
Proof.
  intros Hms.
  apply run_load_test_records in Hms as [Hall Hperm].
  assert (forall m, m ∈ ms ->
            PM.operation m = operation
            /\ PM.dataset_size m = dataset_size
            /\ PM.concurrent_users m = concurrent_users) as Hlabels.
  { intros m Hm.
    eapply elem_of_Permutation_proper in Hm; [|symmetry; exact Hperm].
    apply list_elem_of_fmap in Hm as (obs & -> & Hobs).
    rewrite Forall_forall in Hall.
    by destruct (recorded_labels obs (Hall obs Hobs)) as (? & ? & ? & _). }
  pose proof (Permutation_length Hperm) as Hlen.
  rewrite length_fmap in Hlen. split.
  - intros Hnil. rewrite Hnil in Hlen. by destruct ms.
  - intros Hne.
    destruct ms as [|first rest];
      [by destruct all_calls|].
    eexists. split; [reflexivity|].
    cbn [BR.sample_count BR.operation BR.dataset_size BR.concurrent_users
         BR.total_errors].
    destruct (Hlabels first) as (-> & -> & ->); [left|].
    rewrite Hlen, length_calls. repeat (split; [done|]).
    change (List.filter (fun m => negb (is_None (PM.error m))) (first :: rest))
      with (List.filter failed (first :: rest)).
    rewrite (Permutation_length (filter_Permutation failed _ _ Hperm)).
    by apply filter_failed_recorded.
Qed.

End load_test_results.

Lemma run_load_test_labels_witness :
  exists ms,
    (run_load_test {| baseline_memory := 0 |} "memory_store"
       (fun u i => observe (Ok ())) 1000 1 1 (fun _ => 0%nat) 60).2 = Ok ms
    /\ forall m, m ∈ ms -> PM.operation m = "memory_store".
Proof.
  eexists. split; [rewrite run_load_test_collect; reflexivity|].
  intros m Hm.
  eapply (run_load_test_labels {| baseline_memory := 0 |} "memory_store"
            (fun u i => observe (Ok ())) 1000 1 1 (fun _ => 0%nat) 60);
    [rewrite run_load_test_collect; reflexivity|exact Hm].
Defined.

Lemma analyze_metrics_run_load_test_witness :
  exists ms r,
    (run_load_test {| baseline_memory := 0 |} "memory_store"
       (fun u i => observe (Raise (Exn RuntimeError "store is down")))
       1000 1 2 (fun _ => 0%nat) 60).2 = Ok ms
    /\ analyze_metrics sample_t_ppf 0 ms = Ok r
    /\ BR.sample_count r = 2%nat
    /\ BR.operation r = "memory_store".
Proof.
  eexists.
  destruct (proj2 (analyze_metrics_run_load_test {| baseline_memory := 0 |}
              "memory_store"
              (fun u i => observe (Raise (Exn RuntimeError "store is down")))
              1000 1 2 sample_t_ppf 0 (fun _ => 0%nat) 60 _
              ltac:(rewrite run_load_test_collect; reflexivity)))
    as (r & Hr & Hn & Hop & _); [discriminate|].
  exists r. split; [rewrite run_load_test_collect; reflexivity|].
  split; [exact Hr|]. split; [exact Hn|exact Hop].
Defined.

(** ** More on the comparison *)

Lemma mapM_result_Ok {A B} (f : A -> result B) (l : list A) (k : list B) :
  mapM f l = Ok k <-> Forall2 (fun x y => f x = Ok y) l k.
Proof.
  revert k. induction l as [|x l IH]; intros k; simpl.
  - split; [intros [= <-]; constructor|by intros ->%Forall2_nil_inv_l].
  - unfold mbind, result_bind, mret, result_ret in *.
    destruct (f x) as [y|e] eqn:Hx.
    + destruct (mapM f l) as [k1|e] eqn:Hl.
      * split.
        -- intros [= <-]. constructor; [done|by apply IH].
        -- intros (y1 & k2 & Hy & Hk & ->)%Forall2_cons_inv_l.
           apply IH in Hk. congruence.
      * split; [done|].
        intros (y1 & k2 & Hy & Hk & ->)%Forall2_cons_inv_l.
        by apply IH in Hk.
    + split; [done|].
      intros (y1 & k2 & Hy & Hk & ->)%Forall2_cons_inv_l. congruence.
Qed.

Lemma mapM_result_Raise {A B} (f : A -> result B) (l : list A) e :
  mapM f l = Raise e -> exists x, x ∈ l /\ f x = Raise e.
Proof.
  induction l as [|x l IH]; simpl; [discriminate|].
  unfold mbind, result_bind, mret, result_ret in *.
  destruct (f x) as [y|e1] eqn:Hx.
  - destruct (mapM f l) as [k1|e1] eqn:Hl; [discriminate|].
    intros [= ->]. destruct IH as (x1 & Hin & Hx1); [done|].
    exists x1. split; [by right|done].
  - intros [= ->]. exists x. split; [left|done].
Qed.

Lemma by_op_snoc (results : list BR.t) (r : BR.t) :
  by_op (results ++ [r]) = <[BR.operation r := r]> (by_op results).
Proof. unfold by_op. by rewrite foldl_app. Qed.

(** The dict built from a list of results holds, for each operation, the
    last result that has it. *)
Lemma by_op_lookup (results : list BR.t) (op : string) :
  by_op results !! op = last_with_op results op.
Proof.
  unfold last_with_op.
  induction results as [|r results IH] using rev_ind; [done|].
  rewrite by_op_snoc, filter_app.
  destruct (decide (BR.operation r = op)) as [<-|Hne].
  - rewrite lookup_insert_eq, filter_cons_True by done.
    by rewrite filter_nil, last_snoc.
  - rewrite lookup_insert_ne, filter_cons_False by done.
    by rewrite filter_nil, app_nil_r.
Qed.

Lemma compare_operation_Ok (current target : BR.t) :
  returned (compare_operation current target) <-> divisors_nonzero current.
Proof.
  unfold compare_operation, divisors_nonzero, truediv, returned.
  unfold mbind, result_bind, mret, result_ret.
  destruct (Req_dec_T (BR.latency_mean current) 0) as [Hl|Hl];
    [split; [by intros [? [=]]|tauto]|].
  destruct (Req_dec_T (BR.throughput_mean current) 0) as [Ht|Ht];
    [split; [by intros [? [=]]|tauto]|].
  destruct (Req_dec_T (BR.memory_usage_mean_mb current) 0) as [Hm|Hm];
    [split; [by intros [? [=]]|tauto]|].
  split; [done|]. intros _. by eexists.
Qed.

Lemma compare_operation_Raise (current target : BR.t) e :
  compare_operation current target = Raise e ->
  e = Exn ZeroDivisionError "float division by zero".
Proof.
  unfold compare_operation, truediv.
  unfold mbind, result_bind, mret, result_ret.
  repeat (destruct (Req_dec_T _ 0); [by intros [= <-]|]).
  discriminate.
Qed.

(** The entries that the loop of [compare_systems] builds from the
    operations that both systems have. *)
Lemma compare_entries (l : list (string * (BR.t * BR.t)))
    (entries : list (string * detail)) :
  mapM (fun '(operation, (current, target)) =>
          d ← compare_operation current target; mret (operation, d)) l
  = Ok entries ->
  entries.*1 = l.*1
  /\ forall op d,
       (op, d) ∈ entries <->
       exists c t, (op, (c, t)) ∈ l /\ compare_operation c t = Ok d.
Proof.
  rewrite mapM_result_Ok.
  induction 1 as [|[op0 [c0 t0]] [op1 d1] l entries Hx _ [IH1 IH2]].
  - split; [done|]. intros op d. split; [by intros ?%elem_of_nil|].
    by intros (c & t & ?%elem_of_nil & _).
  - unfold mbind, result_bind, mret, result_ret in Hx.
    destruct (compare_operation c0 t0) as [d0|e] eqn:Hc; [|done].
    injection Hx as <- <-. split; [by rewrite !fmap_cons, IH1|].
    intros op d. rewrite elem_of_cons, IH2. split.
    + intros [[= -> ->]|(c & t & Hin & Hd)].
      * exists c0, t0. split; [left|done].
      * exists c, t. split; [by right|done].
    + intros (c & t & [[= -> -> ->]|Hin]%elem_of_cons & Hd).
      * left. congruence.
      * right. by exists c, t.
Qed.

Lemma compare_systems_Ok current_results target_results cmp :
  compare_systems current_results target_results = Ok cmp ->
  exists entries,
    mapM (fun '(operation, (current, target)) =>
            d ← compare_operation current target; mret (operation, d))
         (map_to_list (map_zip (by_op current_results)
                               (by_op target_results)))
    = Ok entries
    /\ cmp = {| summary := ∅;
                detailed_comparison := list_to_map entries;
                migration_targets_assessment := ∅ |}.
Proof.
  unfold compare_systems. cbv zeta.
  destruct (mapM _ _) as [entries|e]; [|done].
  intros [= <-]. by exists entries.
Qed.

(** X12: when the comparison returns, its summary and its assessment are
    empty, and its detailed comparison has an entry exactly for the
    operations that both lists have, computed from the last result of
    each list with that operation. *)
Theorem compare_systems_entries current_results target_results cmp :
  compare_systems current_results target_results = Ok cmp ->
  summary cmp = ∅
  /\ migration_targets_assessment cmp = ∅
  /\ forall op d,
       detailed_comparison cmp !! op = Some d <->
       exists current target,
         last_with_op current_results op = Some current
         /\ last_with_op target_results op = Some target
         /\ compare_operation current target = Ok d.
Proof.
  intros (entries & Hentries & ->)%compare_systems_Ok.
  split; [done|]. split; [done|]. intros op d. simpl.
  apply compare_entries in Hentries as [Hkeys Hin].
  rewrite <- elem_of_list_to_map, Hin
    by (rewrite Hkeys; apply NoDup_fst_map_to_list).
  setoid_rewrite elem_of_map_to_list.
  setoid_rewrite map_lookup_zip_Some. setoid_rewrite by_op_lookup.
  simpl. split; intros (c & t & H); exists c, t; tauto.
Qed.

Lemma compare_systems_entries_witness :
  exists cmp,
    compare_systems [sample_summary 200 250 12] [sample_summary 20 25 60]
    = Ok cmp
    /\ summary cmp = ∅.
Proof.
  destruct (compare_systems [sample_summary 200 250 12]
              [sample_summary 20 25 60]) as [cmp|e] eqn:Hcmp.
  - exists cmp. split; [done|].
    by destruct (compare_systems_entries _ _ _ Hcmp) as [Hs _].
  - rewrite compare_systems_pair in Hcmp by done.
    unfold compare_operation in Hcmp.
    rewrite !truediv_nonzero in Hcmp by (simpl; lra). discriminate Hcmp.
Defined.

(** X13: the comparison returns exactly when, for every operation that
    both lists have, the mean latency, mean throughput and mean memory
    usage of the last current result are not zero; all it ever raises is
    [ZeroDivisionError]. *)
Theorem compare_systems_returns_iff current_results target_results :
  (returned (compare_systems current_results target_results) <->
   forall op current target,
     last_with_op current_results op = Some current ->
     last_with_op target_results op = Some target ->
     divisors_nonzero current)
  /\ (forall e,
        compare_systems current_results target_results = Raise e ->
        e = Exn ZeroDivisionError "float division by zero").
Proof.
  unfold compare_systems. cbv zeta.
  set (both := map_zip _ _).
  assert (forall op c t,
            (op, (c, t)) ∈ map_to_list both <->
            last_with_op current_results op = Some c
            /\ last_with_op target_results op = Some t) as Hboth.
  { intros op c t. unfold both.
    by rewrite elem_of_map_to_list, map_lookup_zip_Some, !by_op_lookup. }
  destruct (mapM _ (map_to_list both)) as [entries|e] eqn:Hm.
  - split; [|done]. split; [|intros _; by eexists].
    intros _ op c t Hc Ht. apply (compare_operation_Ok c t).
    apply mapM_result_Ok in Hm.
    assert ((op, (c, t)) ∈ map_to_list both) as Hin by (by apply Hboth).
    apply list_elem_of_lookup in Hin as [i Hi].
    destruct (Forall2_lookup_l _ _ _ _ _ Hm Hi) as ([op1 d] & _ & Hd).
    unfold mbind, result_bind in Hd.
    destruct (compare_operation c t) as [d0|e]; [by exists d0|done].
  - apply mapM_result_Raise in Hm as ([op [c t]] & Hin & Hr).
    unfold mbind, result_bind in Hr.
    destruct (compare_operation c t) as [d|e0] eqn:Hc; [done|].
    injection Hr as ->. split.
    + split; [by intros [? [=]]|]. intros Hall. exfalso.
      apply Hboth in Hin as [Hc1 Ht1].
      destruct (proj2 (compare_operation_Ok c t) (Hall op c t Hc1 Ht1))
        as [d Hd].
      congruence.
    + intros e0 [= <-]. by apply compare_operation_Raise in Hc.
Qed.

Lemma compare_systems_returns_iff_witness :
  returned
    (compare_systems [sample_summary 200 250 12] [sample_summary 20 25 60])
  /\ compare_systems [sample_summary 0 0 0] [sample_summary 20 25 60]
     = Raise (Exn ZeroDivisionError "float division by zero").
Proof.
  split.
  - apply (proj1 (compare_systems_returns_iff [sample_summary 200 250 12]
                    [sample_summary 20 25 60])).
    intros op current target Hc _. rewrite <- by_op_lookup in Hc.
    rewrite by_op_singleton in Hc.
    apply lookup_singleton_Some in Hc as [_ <-].
    unfold divisors_nonzero. simpl. repeat split; lra.
  - destruct (compare_systems [sample_summary 0 0 0]
                [sample_summary 20 25 60]) as [cmp|e] eqn:Hcmp.
    + by rewrite compare_systems_zero_mean in Hcmp.
    + f_equal.
      apply (proj2 (compare_systems_returns_iff [sample_summary 0 0 0]
                      [sample_summary 20 25 60]) e Hcmp).
Defined.

Lemma last_with_op_Some (results : list BR.t) (op : string) (r : BR.t) :
  last_with_op results op = Some r -> r ∈ results /\ BR.operation r = op.
Proof.
  unfold last_with_op. intros Hlast.
  assert (r ∈ filter (fun r => BR.operation r = op) results) as Hin.
  { apply last_Some in Hlast as [l ->]. apply elem_of_app. right. left. }
  by apply list_elem_of_filter in Hin as [? ?].
Qed.

Lemma map_zip_by_op_disjoint current_results target_results :
  (forall current target,
     current ∈ current_results -> target ∈ target_results ->
     BR.operation current <> BR.operation target) ->
  map_zip (by_op current_results) (by_op target_results) = ∅.
Proof.
  intros Hdisjoint. apply map_eq. intros op. rewrite lookup_empty.
  apply eq_None_not_Some. intros [[c t] Hct].
  apply map_lookup_zip_Some in Hct as [Hc Ht]. simpl in *.
  rewrite by_op_lookup in Hc, Ht.
  apply last_with_op_Some in Hc as [Hc <-].
  apply last_with_op_Some in Ht as [Ht Heq].
  by apply (Hdisjoint c t).
Qed.

(** X14: when no operation occurs in both lists, and so when one of the
    lists is empty, the comparison returns with nothing in it and does
    not raise, whatever the means are. *)
Theorem compare_systems_disjoint current_results target_results :
  (forall current target,
     current ∈ current_results -> target ∈ target_results ->
     BR.operation current <> BR.operation target) ->
  compare_systems current_results target_results
  = Ok {| summary := ∅; detailed_comparison := ∅;
          migration_targets_assessment := ∅ |}.
Proof.
  intros Hdisjoint. unfold compare_systems. cbv zeta.
  rewrite map_zip_by_op_disjoint by done.
  by rewrite map_to_list_empty.
Qed.

Lemma compare_systems_disjoint_witness :
  compare_systems [sample_summary 0 0 0] []
  = Ok {| summary := ∅; detailed_comparison := ∅;
          migration_targets_assessment := ∅ |}.
Proof.
  apply compare_systems_disjoint.
  intros current target _ Ht. by apply elem_of_nil in Ht.
Defined.

(** X15: the runner labels the results of the current system
    ["current_..."] and those of the target system ["target_..."]; for
    lists labelled so the comparison is always empty. *)
Theorem compare_systems_runner_labels current_results target_results :
  Forall (fun r => exists op, BR.operation r = "current_" +:+ op)
         current_results ->
  Forall (fun r => exists op, BR.operation r = "target_" +:+ op)
         target_results ->
  compare_systems current_results target_results
  = Ok {| summary := ∅; detailed_comparison := ∅;
          migration_targets_assessment := ∅ |}.
Proof.
  intros Hcur Htgt. unfold compare_systems. cbv zeta.
  rewrite map_zip_by_op_disjoint; [by rewrite map_to_list_empty|].
  intros c t Hc Ht. rewrite Forall_forall in Hcur, Htgt.
  destruct (Hcur c Hc) as [opc ->]. destruct (Htgt t Ht) as [opt ->].
  discriminate.
Qed.

Lemma compare_systems_runner_labels_witness :
  compare_systems
    [BR.mk "current_store" 1000 1 5 200 1 250 1 1 1 1 12 1 1 1 1 1 1 0 0 1 0]
    [BR.mk "target_store" 1000 1 5 20 1 25 1 1 1 1 60 1 1 1 1 1 1 0 0 1 0]
  = Ok {| summary := ∅; detailed_comparison := ∅;
          migration_targets_assessment := ∅ |}.
Proof.
  apply compare_systems_runner_labels.
  - repeat constructor. by exists "store".
  - repeat constructor. by exists "store".
Defined.

(** ** The production targets *)

Lemma append_empty_l (t : string) : "" +:+ t = t.
Proof. reflexivity. Qed.

Lemma append_String (a : Ascii.ascii) (s t : string) :
  String a s +:+ t = String a (s +:+ t).
Proof. reflexivity. Qed.

Lemma length_append (s t : string) :
  String.length (s +:+ t) = (String.length s + String.length t)%nat.
Proof.
  induction s as [|a s IH]; [done|].
  rewrite append_String. simpl. by rewrite IH.
Qed.

Lemma append_suffix (s1 s2 t1 t2 : string) :
  s1 +:+ t1 = s2 +:+ t2 -> (String.length t1 <= String.length t2)%nat ->
  exists p, t2 = p +:+ t1.
Proof.
  revert s1. induction s2 as [|b s2 IH]; intros s1 Heq Hlen.
  - exists s1. by rewrite Heq.
  - destruct s1 as [|a s1].
    + rewrite append_empty_l, append_String in Heq. subst t1.
      simpl in Hlen. rewrite length_append in Hlen. lia.
    + rewrite !append_String in Heq.
      injection Heq as -> Heq. by apply (IH s1).
Qed.

Lemma append_inj_l (s1 s2 t : string) : s1 +:+ t = s2 +:+ t -> s1 = s2.
Proof.
  revert s2. induction s1 as [|a s1 IH]; intros [|b s2] Heq.
  - done.
  - apply (f_equal String.length) in Heq.
    rewrite append_empty_l, append_String in Heq. simpl in Heq.
    rewrite length_append in Heq. lia.
  - apply (f_equal String.length) in Heq.
    rewrite append_empty_l, append_String in Heq. simpl in Heq.
    rewrite length_append in Heq. lia.
  - rewrite !append_String in Heq.
    injection Heq as -> Heq. f_equal. by apply IH.
Qed.

Ltac suffix_clash H :=
  let p := fresh "p" in
  let Hp := fresh "Hp" in
  destruct (append_suffix _ _ _ _ H ltac:(simpl; lia)) as [p Hp];
  repeat (destruct p as [|? p];
          [rewrite append_empty_l in Hp; discriminate Hp
          |rewrite append_String in Hp;
           first [discriminate Hp|injection Hp as _ Hp]]).

(** Keys of different operations or of different kinds are different. *)
Lemma flag_key_inj (op1 op2 : string) (f1 f2 : flag) :
  flag_key op1 f1 = flag_key op2 f2 -> op1 = op2 /\ f1 = f2.
Proof.
  unfold flag_key. intros Heq.
  destruct f1, f2; simpl in Heq;
    try (split; [by apply append_inj_l in Heq|done]);
    exfalso; first [suffix_clash Heq | symmetry in Heq; suffix_clash Heq].
Qed.

Lemma last_with_op_snoc (results : list BR.t) (r : BR.t) (op : string) :
  last_with_op (results ++ [r]) op
  = if decide (BR.operation r = op) then Some r else last_with_op results op.
Proof.
  unfold last_with_op. rewrite filter_app.
  destruct (decide (BR.operation r = op)) as [Heq|Hne].
  - by rewrite filter_cons_True, filter_nil, last_snoc.
  - by rewrite filter_cons_False, filter_nil, app_nil_r.
Qed.

Lemma evaluate_result_lookup evaluation (r : BR.t) (op : string) (f : flag) :
  evaluate_result evaluation r !! flag_key op f
  = if decide (BR.operation r = op)
    then match flag_value r f with
         | Some b => Some b
         | None => evaluation !! flag_key op f
         end
    else evaluation !! flag_key op f.
Proof.
  unfold evaluate_result. cbv zeta.
  change (BR.operation r +:+ "_concurrent_users_met")
    with (flag_key (BR.operation r) Concurrent_users).
  change (BR.operation r +:+ "_error_rate_met")
    with (flag_key (BR.operation r) Error_rate).
  change (BR.operation r +:+ "_p95_latency_met")
    with (flag_key (BR.operation r) P95_latency).
  destruct (decide (BR.operation r = op)) as [<-|Hne].
  - destruct f; simpl.
    + rewrite !lookup_insert_ne by (by intros [_ [=]]%flag_key_inj).
      destruct (p95_latency_max_ms !! BR.operation r); simpl; [|done].
      by rewrite lookup_insert_eq.
    + rewrite lookup_insert_ne by (by intros [_ [=]]%flag_key_inj).
      by rewrite lookup_insert_eq.
    + by rewrite lookup_insert_eq.
  - rewrite !lookup_insert_ne by (by intros [? _]%flag_key_inj).
    destruct (p95_latency_max_ms !! BR.operation r); [|done].
    by rewrite lookup_insert_ne by (by intros [? _]%flag_key_inj).
Qed.

Lemma evaluate_results_last (results : list BR.t) (op : string) (f : flag) :
  evaluate_results results !! flag_key op f
  = r ← last_with_op results op; flag_value r f.
Proof.
  unfold evaluate_results.
  induction results as [|r results IH] using rev_ind; [done|].
  rewrite foldl_app, last_with_op_snoc. cbn [foldl].
  rewrite evaluate_result_lookup, IH.
  destruct (decide (BR.operation r = op)) as [Heq|Hne]; [|done].
  simpl. destruct (flag_value r f) eqn:Hf; [done|].
  destruct f; simpl in Hf; try discriminate Hf.
  destruct (last_with_op results op) as [r1|] eqn:Hlast; [|done].
  apply last_with_op_Some in Hlast as [_ Hop]. simpl.
  rewrite Hop, <- Heq.
  by destruct (p95_latency_max_ms !! BR.operation r).
Qed.

Lemma evaluate_result_key evaluation (r : BR.t) (key : string) (b : bool) :
  evaluate_result evaluation r !! key = Some b ->
  evaluation !! key = Some b \/ exists f, key = flag_key (BR.operation r) f.
Proof.
  unfold evaluate_result. cbv zeta.
  destruct (decide (key = flag_key (BR.operation r) Concurrent_users))
    as [->|H1]; [intros _; right; by eexists|].
  rewrite lookup_insert_ne by done.
  destruct (decide (key = flag_key (BR.operation r) Error_rate))
    as [->|H2]; [intros _; right; by eexists|].
  rewrite lookup_insert_ne by done.
  destruct (p95_latency_max_ms !! BR.operation r); [|by left].
  destruct (decide (key = flag_key (BR.operation r) P95_latency))
    as [->|H3]; [intros _; right; by eexists|].
  rewrite lookup_insert_ne by done. by left.
Qed.

(** X16: the evaluation of a list of results holds, under the key of an
    operation and a kind of flag, the flag of the last result with that
    operation: its error rate against 1%, its concurrency against 100,
    and its p95 latency against the bound of the operation if the table
    has one (no p95 flag otherwise); it holds nothing else: every key is
    the key of a flag of the last result with some operation. *)
Theorem evaluate_results_lookup (results : list BR.t) :
  (forall op f,
     evaluate_results results !! flag_key op f
     = r ← last_with_op results op; flag_value r f)
  /\ (forall key b,
        evaluate_results results !! key = Some b ->
        exists op f r,
          key = flag_key op f
          /\ last_with_op results op = Some r
          /\ flag_value r f = Some b).
Proof.
  split; [intros op f; apply evaluate_results_last|].
  assert (forall key b,
            evaluate_results results !! key = Some b ->
            exists op f, key = flag_key op f) as Hkeys.
  { unfold evaluate_results.
    induction results as [|r results IH] using rev_ind; [done|].
    intros key b. rewrite foldl_app. cbn [foldl].
    intros [Hold|[f ->]]%evaluate_result_key; [by eapply IH|by eexists _, _]. }
  intros key b Hkey. destruct (Hkeys key b Hkey) as (op & f & ->).
  rewrite evaluate_results_last in Hkey.
  destruct (last_with_op results op) as [r|] eqn:Hlast; [|done].
  by exists op, f, r.
Qed.

Lemma evaluate_results_lookup_witness :
  exists op f r,
    flag_key "memory_search" Concurrent_users = flag_key op f
    /\ last_with_op [sample_summary 20 25 60] op = Some r
    /\ flag_value r f = Some false.
Proof.
  apply (proj2 (evaluate_results_lookup [sample_summary 20 25 60])).
  rewrite (proj1 (evaluate_results_lookup [sample_summary 20 25 60])).
  reflexivity.
Defined.

Lemma p95_latency_max_ms_target (op : string) :
  p95_latency_max_ms !! ("target_" +:+ op) = None.
Proof.
  unfold p95_latency_max_ms.
  rewrite !lookup_insert_ne by discriminate.
  by rewrite lookup_singleton_ne by discriminate.
Qed.

(** X17: the runner evaluates results labelled ["target_..."], and the
    table of p95 bounds has none of these labels: no p95 flag is ever set
    for them, only the error rate and concurrency flags. *)
Theorem evaluate_results_runner_labels (results : list BR.t) :
  Forall (fun r => exists op, BR.operation r = "target_" +:+ op) results ->
  forall op,
    evaluate_results results !! flag_key op P95_latency = None
    /\ (forall r, last_with_op results op = Some r ->
          evaluate_results results !! flag_key op Error_rate
          = Some (Rleb (BR.error_rate r) (1 / 100))
          /\ evaluate_results results !! flag_key op Concurrent_users
             = Some (bool_decide (100 <= BR.concurrent_users r)%Z)).
Proof.
  intros Hlabels op. rewrite !evaluate_results_last. split.
  - destruct (last_with_op results op) as [r|] eqn:Hlast; [|done].
    apply last_with_op_Some in Hlast as [Hin _].
    rewrite Forall_forall in Hlabels. destruct (Hlabels r Hin) as [x Hx].
    simpl. by rewrite Hx, p95_latency_max_ms_target.
  - by intros r ->.
Qed.

Lemma evaluate_results_runner_labels_witness :
  evaluate_results
    [BR.mk "target_store" 1000 100 5 20 1 25 1 1 1 1 60 1 1 1 1 1 1 0 0 1 0]
    !! flag_key "target_store" P95_latency = None.
Proof.
  apply evaluate_results_runner_labels.
  repeat constructor. by exists "store".
Defined.

(** ** What the pre-edit hook reports *)

Section pre_edit_report.

Variables HookEventContent HookEvent : Type.
Variable HookEventContent_new :
  HookEventContent_args -> result HookEventContent.
Variable HookEvent_new : HookEventContent -> result HookEvent.
Variable asyncio_run_save : HookEvent -> result ().

Abbreviation handle_hook :=
  (handle_pre_edit HookEventContent HookEvent
     HookEventContent_new HookEvent_new asyncio_run_save).

(** X18: when the event is built, the handler reports [event_logged:
    True] and the number of file paths whether saving the event returned
    or raised an [Exception]: a failed save leaves no trace in the
    result.  When building the event raises an [Exception], the handler
    reports [event_logged: False] and the message, and no file count. *)
Theorem handle_pre_edit_report file_paths tool_name session_id :
  let built :=
    content ← HookEventContent_new
                (pre_edit_args file_paths tool_name session_id);
    HookEvent_new content in
  (forall event,
     built = Ok event ->
     (forall e, asyncio_run_save event = Raise e -> is_Exception e = true) ->
     handle_hook file_paths tool_name session_id
     = Ok {[ "proceed" := VBool true;
             "file_count" := VInt (Z.of_nat (length file_paths));
             "event_logged" := VBool true ]})
  /\ (forall e,
        built = Raise e -> is_Exception e = true ->
        handle_hook file_paths tool_name session_id
        = Ok {[ "proceed" := VBool true;
                "error" := VStr (str e);
                "event_logged" := VBool false ]}).
Proof.
  unfold handle_pre_edit, pre_edit_args, try_except, mbind, result_bind,
    mret, result_ret. cbv zeta.
  destruct (HookEventContent_new _) as [content|e0].
  - destruct (HookEvent_new content) as [event0|e0].
    + split; [|by intros e [=]]. intros event [= <-] Hsave.
      destruct (asyncio_run_save event0) as [[]|e]; [done|].
      by rewrite (Hsave e).
    + split; [by intros event [=]|]. intros e [= <-] He. by rewrite He.
  - split; [by intros event [=]|]. intros e [= <-] He. by rewrite He.
Qed.

End pre_edit_report.

Lemma handle_pre_edit_report_witness :
  handle_pre_edit unit unit (fun _ => Ok ()) (fun _ => Ok ())
    (fun _ => Raise (Exn RuntimeError "database is locked"))
    ["src/main.py"; "src/util.py"] "Edit" None
  = Ok {[ "proceed" := VBool true; "file_count" := VInt 2;
          "event_logged" := VBool true ]}
  /\ handle_pre_edit unit unit
       (fun _ => Raise (Exn ValueError "bad event")) (fun _ => Ok ())
       (fun _ => Ok ()) ["src/main.py"] "Edit" None
     = Ok {[ "proceed" := VBool true; "error" := VStr "bad event";
             "event_logged" := VBool false ]}.
Proof.
  split.
  - apply (proj1 (handle_pre_edit_report unit unit (fun _ => Ok ())
                    (fun _ => Ok ())
                    (fun _ => Raise (Exn RuntimeError "database is locked"))
                    ["src/main.py"; "src/util.py"] "Edit" None) ()).
    + reflexivity.
    + intros e [= <-]. reflexivity.
  - apply (proj2 (handle_pre_edit_report unit unit
                    (fun _ => Raise (Exn ValueError "bad event"))
                    (fun _ => Ok ()) (fun _ => Ok ())
                    ["src/main.py"] "Edit" None)
             (Exn ValueError "bad event")); reflexivity.
Defined.

(** ** The entry point of the pre-edit hook *)

Section main_facts.

Variable message : string -> json -> string.
Variable handle : json -> json -> json -> result (gmap string value).

Abbreviation run_main := (main message handle).
Abbreviation extract := (arguments message).

Lemma respond_cases (body : result (gmap string value)) :
  match body with
  | Ok result =>
    stdout (respond body) = [result]
    /\ exit_status (respond body)
       = Ok (if truthy (default (VBool true) (result !! "proceed"))
             then 0%Z else 1%Z)
  | Raise e =>
    if is_Exception e
    then exit_status (respond body) = Ok 0%Z
         /\ stdout (respond body)
            = [{[ "proceed" := VBool true; "error" := VStr (str e) ]}]
         /\ stderr (respond body) = ["Error in pre-edit hook: " +:+ str e]
    else exit_status (respond body) = Raise e
         /\ stdout (respond body) = []
  end.
Proof.
  destruct body as [result|e]; simpl; [done|].
  by destruct (is_Exception e).
Qed.

Lemma py_get_Raise obj key default_value e :
  py_get message obj key default_value = Raise e -> is_Exception e = true.
Proof. destruct obj; simpl; by intros [= <-]. Qed.

Lemma py_contains_Raise key obj e :
  py_contains message key obj = Raise e -> is_Exception e = true.
Proof. destruct obj; simpl; by intros [= <-]. Qed.

Lemma py_getitem_Raise obj key e :
  py_getitem message obj key = Raise e -> is_Exception e = true.
Proof.
  destruct obj as [| | | | | |m]; simpl; try by intros [= <-].
  destruct (m !! key); by intros [= <-].
Qed.

(** Extracting the arguments raises nothing but [Exception]s. *)
Lemma arguments_Raise hook_input e :
  extract hook_input = Raise e -> is_Exception e = true.
Proof.
  unfold arguments, mbind, result_bind, mret, result_ret.
  destruct (py_get _ hook_input "session_id" _) as [sid|e0] eqn:H1;
    [|intros [= <-]; by eapply py_get_Raise].
  destruct (py_get _ hook_input "tool_input" _) as [ti|e0] eqn:H2;
    [|intros [= <-]; by eapply py_get_Raise].
  destruct (py_get _ hook_input "tool_name" _) as [tn|e0] eqn:H3;
    [|intros [= <-]; by eapply py_get_Raise].
  destruct (py_contains _ "file_path" ti) as [[]|e0] eqn:H4;
    [| |intros [= <-]; by eapply py_contains_Raise].
  - destruct (py_getitem _ ti "file_path") as [v|e0] eqn:H5; [done|].
    intros [= <-]. by eapply py_getitem_Raise.
  - destruct (py_contains _ "file_paths" ti) as [[]|e0] eqn:H5;
      [| |intros [= <-]; by eapply py_contains_Raise].
    + destruct (py_getitem _ ti "file_paths") as [v|e0] eqn:H6; [done|].
      intros [= <-]. by eapply py_getitem_Raise.
    + done.
Qed.

(** X19: if the handler only ever returns dicts whose ["proceed"] is
    [True], then for every input, well formed or not, the hook prints
    exactly one dict whose ["proceed"] is [True] and exits with status
    [0], unless reading the input or the handler raised an error that is
    not an [Exception], which ends the run with nothing printed.  The
    status is never [1]. *)
Theorem main_fail_open (stdin : result json) :
  (forall file_paths tool_name session_id d,
     handle file_paths tool_name session_id = Ok d ->
     d !! "proceed" = Some (VBool true)) ->
  match exit_status (run_main stdin) with
  | Ok code =>
    code = 0%Z
    /\ exists d, stdout (run_main stdin) = [d]
                 /\ d !! "proceed" = Some (VBool true)
  | Raise e =>
    is_Exception e = false
    /\ stdout (run_main stdin) = []
    /\ (stdin = Raise e
        \/ exists file_paths tool_name session_id,
             handle file_paths tool_name session_id = Raise e)
  end.
Proof.
  intros Hhandle. unfold main.
  set (body := _ ≫= _).
  pose proof (respond_cases body) as Hcases.
  destruct body as [result|e] eqn:Hbody.
  - destruct Hcases as [-> ->].
    assert (result !! "proceed" = Some (VBool true)) as Hproceed.
    { unfold body in Hbody. destruct stdin as [hook_input|]; [|done].
      simpl in Hbody.
      destruct (extract hook_input) as [[[fp tn] sid]|]; [|done].
      simpl in Hbody. by eapply Hhandle. }
    rewrite Hproceed. simpl. split; [done|]. by exists result.
  - destruct (is_Exception e) eqn:He.
    + destruct Hcases as (-> & -> & _). split; [done|].
      eexists. split; [done|]. by rewrite lookup_insert_eq.
    + destruct Hcases as [-> ->]. split; [done|]. split; [done|].
      unfold body in Hbody. destruct stdin as [hook_input|e0].
      * right. simpl in Hbody.
        destruct (extract hook_input) as [[[fp tn] sid]|e0] eqn:Hargs.
        -- simpl in Hbody. by exists fp, tn, sid.
        -- simpl in Hbody. injection Hbody as ->.
           apply arguments_Raise in Hargs. congruence.
      * left. simpl in Hbody. congruence.
Qed.

End main_facts.

Lemma main_fail_open_witness :
  exit_status
    (main (fun _ _ => "unsupported")
       (fun _ _ _ => Ok {[ "proceed" := VBool true ]})
       (Ok (JArr [JStr "not"; JStr "an"; JStr "object"])))
  = Ok 0%Z.
Proof.
  pose proof (main_fail_open (fun _ _ => "unsupported")
                (fun _ _ _ => Ok {[ "proceed" := VBool true ]})
                (Ok (JArr [JStr "not"; JStr "an"; JStr "object"]))) as Hmain.
  simpl in Hmain. destruct Hmain as [_ _]; [|reflexivity].
  intros _ _ _ d [= <-]. by rewrite lookup_singleton_eq.
Defined.

Section main_arguments.

Variable message : string -> json -> string.

(** X20: from an input object whose ["tool_input"] is an object (or is
    missing), the hook takes the single ["file_path"] if there is one,
    even when ["file_paths"] is there too, else the value of
    ["file_paths"], else no path; a missing tool name is ["unknown"] and
    a missing session id is [None].  From a ["tool_input"] that is not an
    object it never takes a path: it raises an [Exception] or takes
    none. *)
Theorem arguments_of_object (input : gmap string json) (tool_input : json) :
  default (JObj ∅) (input !! "tool_input") = tool_input ->
  (forall ti, tool_input = JObj ti ->
     arguments message (JObj input)
     = Ok (match ti !! "file_path" with
           | Some v => JArr [v]
           | None => default (JArr []) (ti !! "file_paths")
           end,
           default (JStr "unknown") (input !! "tool_name"),
           default JNull (input !! "session_id")))
  /\ ((forall ti, tool_input <> JObj ti) ->
      match arguments message (JObj input) with
      | Ok (file_paths, _, _) => file_paths = JArr []
      | Raise e => is_Exception e = true
      end).
Proof.
  intros Hti. unfold arguments, py_get.
  unfold mbind, result_bind, mret, result_ret. rewrite Hti. split.
  - intros ti ->. unfold py_contains, py_getitem.
    destruct (ti !! "file_path") as [v|] eqn:Hpath.
    + rewrite bool_decide_true by eauto. done.
    + rewrite bool_decide_false by (by intros [? ?]).
      destruct (ti !! "file_paths") as [v|] eqn:Hpaths.
      * rewrite bool_decide_true by eauto. done.
      * rewrite bool_decide_false by (by intros [? ?]). done.
  - intros Hnot.
    destruct tool_input as [| | | |s|l|m]; try done.
    + simpl. destruct (bool_decide _); [done|]. by destruct (bool_decide _).
    + simpl. destruct (existsb _ l); [done|]. by destruct (existsb _ l).
    + by destruct (Hnot m).
Qed.

End main_arguments.

Lemma arguments_of_object_witness :
  arguments (fun _ _ => "unsupported")
    (JObj {[ "tool_name" := JStr "Edit";
             "tool_input" :=
               JObj {[ "file_path" := JStr "src/main.py";
                       "file_paths" := JArr [JStr "src/util.py"] ]} ]})
  = Ok (JArr [JStr "src/main.py"], JStr "Edit", JNull).
Proof.
  pose proof (proj1 (arguments_of_object (fun _ _ => "unsupported")
                       {[ "tool_name" := JStr "Edit";
                          "tool_input" :=
                            JObj {[ "file_path" := JStr "src/main.py";
                                    "file_paths" :=
                                      JArr [JStr "src/util.py"] ]} ]}
                       _ eq_refl) _ eq_refl) as Hargs.
  exact Hargs.
Defined.

(** ** The simulated memory store *)

(** X21: an update returns [True] exactly when the id has at least 16
    characters and a memory is stored under it; then that memory gets the
    updates, which win over its old fields, and nothing else changes.
    When it returns [False], an id of fewer than 16 characters included
    even if a memory is stored under it, the storage is unchanged. *)
Theorem mock_memory_update_operation_spec
    (self : CurrentMemoryMCPBenchmark) (memory_id : string)
    (updates : gmap string json) :
  let '(self', updated) :=
    mock_memory_update_operation self memory_id updates in
  (updated = true <->
   (16 <= String.length memory_id)%nat
   /\ is_Some (mock_memory_store self !! memory_id))
  /\ (updated = false -> self' = self)
  /\ (updated = true ->
      (forall memory, mock_memory_store self !! memory_id = Some memory ->
         mock_memory_store self' !! memory_id = Some (updates ∪ memory))
      /\ (forall other, other <> memory_id ->
            mock_memory_store self' !! other
            = mock_memory_store self !! other)
      /\ mock_chroma_db self' = mock_chroma_db self).
Proof.
  unfold mock_memory_update_operation.
  destruct (decide (String.length memory_id < 16)%nat) as [Hshort|Hlong].
  - split; [split; [done|lia]|]. by split.
  - destruct (mock_memory_store self !! memory_id) as [memory|] eqn:Hm.
    + split; [split; [intros _; split; [lia|by eexists]|done]|].
      split; [done|]. intros _. simpl. split; [|split; [|done]].
      * intros ? [= <-]. by rewrite lookup_insert_eq.
      * intros other Hne. by rewrite lookup_insert_ne.
    + split; [split; [done|by intros [_ [? [=]]]]|]. by split.
Qed.

(** X22: after a memory is stored, it is found under the returned id with
    that id, the creation time and the namespace ["default"] in it,
    whatever the caller passed for these three fields, and with the
    caller's other fields; the memories under other ids are untouched; an
    update under the returned id then succeeds if the id has at least 16
    characters. *)
Theorem mock_memory_store_operation_lookup
    (self : CurrentMemoryMCPBenchmark) (memory_id created_at : string)
    (embedding : list R) (memory_data updates : gmap string json) :
  let '(self', returned_id) :=
    mock_memory_store_operation self memory_id created_at embedding
      memory_data in
  returned_id = memory_id
  /\ (exists memory,
        mock_memory_store self' !! returned_id = Some memory
        /\ memory !! "id" = Some (JStr memory_id)
        /\ memory !! "created_at" = Some (JStr created_at)
        /\ memory !! "namespace" = Some (JStr "default")
        /\ (forall key, key <> "id" -> key <> "created_at" ->
              key <> "namespace" -> memory !! key = memory_data !! key))
  /\ (forall other, other <> memory_id ->
        mock_memory_store self' !! other = mock_memory_store self !! other)
  /\ ((16 <= String.length memory_id)%nat ->
      (mock_memory_update_operation self' returned_id updates).2 = true).
Proof.
  unfold mock_memory_store_operation. cbv zeta.
  split; [done|]. split; [|split].
  - eexists. cbn [mock_memory_store]. split; [by rewrite lookup_insert_eq|].
    split; [by rewrite !lookup_insert_ne, lookup_insert_eq by done|].
    split; [by rewrite lookup_insert_ne, lookup_insert_eq by done|].
    split; [by rewrite lookup_insert_eq|].
    intros key H1 H2 H3. by rewrite !lookup_insert_ne by done.
  - intros other Hne. cbn [mock_memory_store]. by rewrite lookup_insert_ne.
  - intros Hlong. unfold mock_memory_update_operation.
    rewrite decide_False by lia. cbn [mock_memory_store].
    by rewrite lookup_insert_eq.
Qed.

Lemma mock_memory_store_operation_lookup_witness :
  (mock_memory_update_operation
     (mock_memory_store_operation
        {| mock_memory_store := ∅; mock_chroma_db := ∅; id_counter := 0 |}
        "9f1c2d3e-4b5a-4c6d-8e7f-0123456789ab" "2025-07-29T10:00:00" []
        {[ "content" := JStr "Test content 7" ]}).1
     "9f1c2d3e-4b5a-4c6d-8e7f-0123456789ab"
     {[ "content" := JStr "updated" ]}).2
  = true.
Proof.
  pose proof (mock_memory_store_operation_lookup
                {| mock_memory_store := ∅; mock_chroma_db := ∅;
                   id_counter := 0 |}
                "9f1c2d3e-4b5a-4c6d-8e7f-0123456789ab"
                "2025-07-29T10:00:00" []
                {[ "content" := JStr "Test content 7" ]}
                {[ "content" := JStr "updated" ]}) as Hstore.
  destruct (mock_memory_store_operation _ _ _ _ _) as [self1 id1] eqn:Hop.
  destruct Hstore as (Hid & _ & _ & Hupdate).
  simpl. subst id1. apply Hupdate. simpl. lia.
Defined.

Lemma mock_memory_update_operation_spec_witness :
  mock_memory_update_operation
    {| mock_memory_store := {[ "3f2a9c1b" := {[ "content" := JStr "note" ]} ]};
       mock_chroma_db := ∅; id_counter := 0 |}
    "3f2a9c1b" {[ "content" := JStr "updated" ]}
  = ({| mock_memory_store :=
          {[ "3f2a9c1b" := {[ "content" := JStr "note" ]} ]};
        mock_chroma_db := ∅; id_counter := 0 |}, false).
Proof.
  pose proof (mock_memory_update_operation_spec
                {| mock_memory_store :=
                     {[ "3f2a9c1b" := {[ "content" := JStr "note" ]} ]};
                   mock_chroma_db := ∅; id_counter := 0 |}
                "3f2a9c1b" {[ "content" := JStr "updated" ]}) as Hspec.
  destruct (mock_memory_update_operation _ _ _) as [self1 updated].
  destruct Hspec as (Hiff & Hsame & _).
  destruct updated.
  - destruct (proj1 Hiff eq_refl) as [Hlen _]. simpl in Hlen. lia.
  - by rewrite Hsame.
Defined.
